(** * scripts/generate_post.py: a shallow embedding and its properties

    The script builds a prompt, calls one of two text-generation providers,
    makes sure the generated text carries a frontmatter block, and writes it
    to [posts/<date>-<slug>.md].

    Python [str] values are modelled as [string]; every character stands for
    the code point of the same number, so the strings of this development are
    the Python strings over U+0000..U+00FF.  The character predicates below
    are Python's on that range.  The slug of the file name, which depends
    on the case and class of every character of the title, is modelled a
    second time over all code points in the module [Unicode]. *)

From Stdlib Require Import String Ascii List ZArith NArith QArith Bool Lia.
From stdpp Require Import base gmap strings.
Import ListNotations.
Open Scope string_scope.
Set Warnings "-register-all".

(** ** Python's string builtins *)

Module PyStr.

Definition code (c : ascii) : N := N_of_ascii c.

Definition between (lo hi : N) (c : ascii) : bool :=
  (lo <=? code c)%N && (code c <=? hi)%N.

(** [str.isspace] on one character: U+0009..U+000D, U+001C..U+001F,
    U+0020, U+0085 and U+00A0. *)
Definition isspace (c : ascii) : bool :=
  between 9 13 c || between 28 31 c || (code c =? 32)%N
  || (code c =? 133)%N || (code c =? 160)%N.

(** The line boundaries of [str.splitlines]: LF, VT, FF, CR, FS, GS, RS
    and NEL. *)
Definition is_linebreak (c : ascii) : bool :=
  between 10 13 c || between 28 30 c || (code c =? 133)%N.

(** [str.isalnum] on one character: the digits and letters of ASCII, the
    ordinal indicators, the micro sign, the superscripts one to three, the
    vulgar fractions and the accented letters. *)
Definition isalnum (c : ascii) : bool :=
  between 48 57 c || between 65 90 c || between 97 122 c
  || (code c =? 170)%N || between 178 179 c || (code c =? 181)%N
  || between 185 186 c || between 188 190 c
  || between 192 214 c || between 216 246 c || between 248 255 c.

(** [str.isupper] on one character. *)
Definition isupper (c : ascii) : bool :=
  between 65 90 c || between 192 214 c || between 216 222 c.

(** The lowercase mapping of one character. *)
Definition lower_char (c : ascii) : ascii :=
  if isupper c then ascii_of_N (code c + 32) else c.

Fixpoint map_chars (f : ascii -> ascii) (s : string) : string :=
  match s with
  | EmptyString => EmptyString
  | String c r => String (f c) (map_chars f r)
  end.

(** [s.lower()] *)
Definition lower (s : string) : string := map_chars lower_char s.

(** [c in chars], for a character and a string of characters *)
Fixpoint char_in (c : ascii) (chars : string) : bool :=
  match chars with
  | EmptyString => false
  | String d r => Ascii.eqb c d || char_in c r
  end.

Fixpoint lstrip_by (p : ascii -> bool) (s : string) : string :=
  match s with
  | EmptyString => EmptyString
  | String c r => if p c then lstrip_by p r else s
  end.

Fixpoint rstrip_by (p : ascii -> bool) (s : string) : string :=
  match s with
  | EmptyString => EmptyString
  | String c r =>
      match rstrip_by p r with
      | EmptyString => if p c then EmptyString else String c EmptyString
      | String d r' => String c (String d r')
      end
  end.

Definition strip_by (p : ascii -> bool) (s : string) : string :=
  rstrip_by p (lstrip_by p s).

(** [s.lstrip()], [s.strip()] *)
Definition lstrip (s : string) : string := lstrip_by isspace s.
Definition strip (s : string) : string := strip_by isspace s.

(** [s.lstrip(chars)], [s.strip(chars)] *)
Definition lstrip_chars (chars s : string) : string :=
  lstrip_by (fun c => char_in c chars) s.
Definition strip_chars (chars s : string) : string :=
  strip_by (fun c => char_in c chars) s.

(** [s.startswith(pre)] *)
Definition startswith (pre s : string) : bool := String.prefix pre s.

Fixpoint last_char (s : string) : option ascii :=
  match s with
  | EmptyString => None
  | String c EmptyString => Some c
  | String _ r => last_char r
  end.

(** [s.endswith(c)] for a single character *)
Definition endswith_char (c : ascii) (s : string) : bool :=
  match last_char s with
  | Some d => Ascii.eqb c d
  | None => false
  end.

(** [s[:n]] for a non-negative [n] *)
Fixpoint take (n : nat) (s : string) : string :=
  match n, s with
  | S m, String c r => String c (take m r)
  | _, _ => EmptyString
  end.

(** [sep.join(parts)] for the empty separator *)
Fixpoint join_empty (parts : list string) : string :=
  match parts with
  | [] => EmptyString
  | p :: ps => p ++ join_empty ps
  end.

(** The characters of a string, as iteration over it yields them:
    one-character strings. *)
Fixpoint chars_of (s : string) : list string :=
  match s with
  | EmptyString => []
  | String c r => String c EmptyString :: chars_of r
  end.

(** [c.isalnum()] on a string: every character is alphanumeric and there
    is at least one. *)
Fixpoint all_chars (p : ascii -> bool) (s : string) : bool :=
  match s with
  | EmptyString => true
  | String c r => p c && all_chars p r
  end.

Definition str_isalnum (s : string) : bool :=
  match s with
  | EmptyString => false
  | _ => all_chars isalnum s
  end.

(** [s.splitlines()]: the lines without their terminators; CR LF is one
    terminator; a final terminator opens no further line. *)
Fixpoint splitlines (s : string) : list string :=
  match s with
  | EmptyString => []
  | String c r =>
      if is_linebreak c then
        match r with
        | String d r' =>
            if (code c =? 13)%N && (code d =? 10)%N
            then EmptyString :: splitlines r'
            else EmptyString :: splitlines r
        | EmptyString => [EmptyString]
        end
      else
        match splitlines r with
        | [] => [String c EmptyString]
        | l :: ls => String c l :: ls
        end
  end.

(** [needle in hay] for two strings *)
Fixpoint contains (needle hay : string) : bool :=
  String.prefix needle hay ||
  match hay with
  | EmptyString => false
  | String _ r => contains needle r
  end.

End PyStr.

(** ** Python values, exceptions and the effects of a run *)

Module PyVal.

(** What [resp.json()] can return, and what the generators hand on. *)
Inductive pyval : Type :=
| PNone
| PBool (b : bool)
| PInt (n : Z)
| PFloat (q : Q)
| PStr (s : string)
| PList (items : list pyval)
| PDict (fields : list (string * pyval)).

Inductive exn : Type :=
| RuntimeError (msg : string)
| IndexError
| TypeError
| AttributeError
| KeyError
| HTTPError (status : Z)
| RequestException
| JSONDecodeError
| OpenAIError
| OSError.

Inductive res (A : Type) : Type :=
| Ok (a : A)
| Raise (e : exn).
Arguments Ok {A} a.
Arguments Raise {A} e.

(** [key in d] and [d[key]] / [d.get(key)] on the fields of a dict *)
Fixpoint dict_has (key : string) (fields : list (string * pyval)) : bool :=
  match fields with
  | [] => false
  | (k, _) :: rest => String.eqb key k || dict_has key rest
  end.

Fixpoint dict_get (key : string) (fields : list (string * pyval)) : option pyval :=
  match fields with
  | [] => None
  | (k, v) :: rest => if String.eqb key k then Some v else dict_get key rest
  end.

(** [s == v] for a string [s]: only an equal string is equal to it. *)
Definition str_eq (s : string) (v : pyval) : bool :=
  match v with
  | PStr t => String.eqb s t
  | _ => false
  end.

(** [s in v] for a string [s]: key test on a dict, substring test on a
    string, element test on a list, [TypeError] on anything else. *)
Definition py_in (s : string) (v : pyval) : res bool :=
  match v with
  | PDict fields => Ok (dict_has s fields)
  | PStr t => Ok (PyStr.contains s t)
  | PList items => Ok (existsb (str_eq s) items)
  | _ => Raise TypeError
  end.

(** [v[s]] for a string [s]: defined on dicts only. *)
Definition py_getitem (v : pyval) (s : string) : res pyval :=
  match v with
  | PDict fields =>
      match dict_get s fields with
      | Some x => Ok x
      | None => Raise KeyError
      end
  | _ => Raise TypeError
  end.

(** [l[0]] *)
Definition first_item {A} (items : list A) : res A :=
  match items with
  | x :: _ => Ok x
  | [] => Raise IndexError
  end.

(** [s + v] for a string [s] *)
Definition str_add (s : string) (v : pyval) : res string :=
  match v with
  | PStr t => Ok (s ++ t)
  | _ => Raise TypeError
  end.

End PyVal.

Module Effects.
Import PyVal.

Record chat_request : Type := {
  model : string;
  messages : list (string * string);
  temperature : Q;
  max_tokens : Z }.

Record http_request : Type := {
  url : string;
  headers : list (string * string);
  json : pyval;
  timeout : Z }.

(** A response: its status and its body when that is JSON. *)
Record http_response : Type := {
  status_code : Z;
  body : option pyval }.

Inductive event : Type :=
| EvPrint (line : string)
| EvModelList
| EvChatCreate (req : chat_request)
| EvHttpPost (req : http_request)
| EvMkdir (dir : string)
| EvWrite (path content : string).

(** Everything outside the script that a run consults. *)
Record world : Type := {
  environ : gmap string string;
  (** the answer of the n-th call of [datetime.date.today().isoformat()] *)
  today_iso : nat -> string;
  (** [openai.Model.list().data] *)
  model_list : res (list pyval);
  (** the message contents of [res.choices], [None] for a null content *)
  chat_create : chat_request -> res (list (option string));
  http_post : http_request -> res http_response;
  fs_mkdir : string -> res unit;
  fs_write : string -> string -> res unit }.

Record state : Type := {
  trace : list event;
  clock : nat }.

Definition init : state := {| trace := []; clock := 0 |}.

Definition M (A : Type) : Type := state -> res A * state.

Definition ret {A} (a : A) : M A := fun st => (Ok a, st).

Definition raise {A} (e : exn) : M A := fun st => (Raise e, st).

Definition bind {A B} (m : M A) (k : A -> M B) : M B :=
  fun st =>
    match m st with
    | (Ok a, st') => k a st'
    | (Raise e, st') => (Raise e, st')
    end.

Definition lift {A} (r : res A) : M A := fun st => (r, st).

Definition emit (e : event) : M unit :=
  fun st => (Ok tt, {| trace := trace st ++ [e]; clock := clock st |}).

Definition today (w : world) : M string :=
  fun st => (Ok (today_iso w (clock st)),
             {| trace := trace st; clock := S (clock st) |}).

Definition print (line : string) : M unit := emit (EvPrint line).

Definition list_models (w : world) : M (list pyval) :=
  bind (emit EvModelList) (fun _ => lift (model_list w)).

Definition create_chat (w : world) (req : chat_request) : M (list (option string)) :=
  bind (emit (EvChatCreate req)) (fun _ => lift (chat_create w req)).

Definition post (w : world) (req : http_request) : M http_response :=
  bind (emit (EvHttpPost req)) (fun _ => lift (http_post w req)).

Definition mkdir (w : world) (dir : string) : M unit :=
  bind (emit (EvMkdir dir)) (fun _ => lift (fs_mkdir w dir)).

Definition write_file (w : world) (path content : string) : M unit :=
  bind (emit (EvWrite path content)) (fun _ => lift (fs_write w path content)).

Definition is_network (e : event) : bool :=
  match e with
  | EvModelList | EvChatCreate _ | EvHttpPost _ => true
  | _ => false
  end.

Definition is_openai (e : event) : bool :=
  match e with
  | EvModelList | EvChatCreate _ => true
  | _ => false
  end.

Definition is_hf (e : event) : bool :=
  match e with
  | EvHttpPost _ => true
  | _ => false
  end.

Definition is_file (e : event) : bool :=
  match e with
  | EvMkdir _ | EvWrite _ _ => true
  | _ => false
  end.

End Effects.

Declare Scope py_scope.
Delimit Scope py_scope with py.
Notation "x <- m ;; k" := (Effects.bind m (fun x => k))
  (at level 100, m at next level, right associativity) : py_scope.
Notation "m ;;; k" := (Effects.bind m (fun _ => k))
  (at level 100, right associativity) : py_scope.

Declare Scope res_scope.
Delimit Scope res_scope with res.

Definition rbind {A B} (r : PyVal.res A) (k : A -> PyVal.res B) : PyVal.res B :=
  match r with
  | PyVal.Ok a => k a
  | PyVal.Raise e => PyVal.Raise e
  end.

Notation "x <- m ;; k" := (rbind m (fun x => k))
  (at level 100, m at next level, right associativity) : res_scope.

(** ** The script *)

Module GeneratePost.
Import PyStr PyVal Effects.

Definition LF : string := String "010"%char EmptyString.
Definition QUOTE : string := String "034"%char EmptyString.

(** [os.getenv(name, default)] *)
Definition getenv (env : gmap string string) (name default : string) : string :=
  match env !! name with
  | Some v => v
  | None => default
  end.

(** Truth value of [os.environ.get(name)]: [None] and the empty string
    are false. *)
Definition truthy (v : option string) : bool :=
  match v with
  | Some (String _ _) => true
  | _ => false
  end.

Definition USE_OPENAI (env : gmap string string) : bool :=
  existsb (String.eqb (lower (getenv env "USE_OPENAI" "true")))
          ["1"; "true"; "yes"].

(** The [model=] argument of the chat call, for the listing [data]:
    ["gpt-4o-mini" if "gpt-4o-mini" in data else "gpt-4o"] *)
Definition pick_model (data : list pyval) : string :=
  if existsb (str_eq "gpt-4o-mini") data then "gpt-4o-mini" else "gpt-4o".

Definition gen_with_openai (w : world) (prompt : string) : M pyval :=
  (let api_key := environ w !! "OPENAI_API_KEY" in
   if negb (truthy api_key) then raise (RuntimeError "OPENAI_API_KEY not set")
   else
     data <- list_models w ;;
     choices <- create_chat w
       {| model := pick_model data;
          messages := [("user", prompt)];
          temperature := 7 # 10;
          max_tokens := 800 |} ;;
     choice <- lift (first_item choices) ;;
     match choice with
     | Some content => ret (PStr (strip content))
     | None => raise AttributeError
     end)%py.

Definition is_dict (v : pyval) : bool :=
  match v with
  | PDict _ => true
  | _ => false
  end.

Definition is_list (v : pyval) : bool :=
  match v with
  | PList _ => true
  | _ => false
  end.

(** [data[0]], used on lists only *)
Definition item0 (data : pyval) : res pyval :=
  match data with
  | PList items => first_item items
  | _ => Raise TypeError
  end.

(** [d.get(key, default)], used on dicts only *)
Definition py_get (d : pyval) (key : string) (default : pyval) : pyval :=
  match d with
  | PDict fields =>
      match dict_get key fields with
      | Some v => v
      | None => default
      end
  | _ => default
  end.

Section Builtins.

(** The builtin [str] on the values of [resp.json()]. *)
Variable str_of : pyval -> string.

(** What [gen_with_hf] does with the decoded body [data]. *)
Definition hf_text (data : pyval) : res pyval :=
  (has_error <- (if is_dict data then py_in "error" data else Ok false) ;;
   if has_error : bool then
     e <- py_getitem data "error" ;;
     msg <- str_add "HF error: " e ;;
     Raise (RuntimeError msg)
   else
   has_text <- (if is_list data
                then d0 <- item0 data ;; py_in "generated_text" d0
                else Ok false) ;;
   if has_text : bool then
     d0 <- item0 data ;;
     py_getitem d0 "generated_text"
   else
   first_is_dict <- (if is_list data
                     then d0 <- item0 data ;; Ok (is_dict d0)
                     else Ok false) ;;
   if first_is_dict : bool then
     d0 <- item0 data ;;
     Ok (py_get d0 "generated_text" (PStr (str_of d0)))
   else
   Ok (PStr (str_of data)))%res.

Definition gen_with_hf (w : world) (prompt : string) : M pyval :=
  match environ w !! "HF_INFERENCE_API_TOKEN" with
  | None | Some EmptyString =>
      raise (RuntimeError "HF_INFERENCE_API_TOKEN not set")
  | Some token =>
      (let api_url := "https://api-inference.huggingface.co/models/gpt2" in
       let headers := [("Authorization", "Bearer " ++ token)] in
       let payload :=
         PDict [("inputs", PStr prompt);
                ("options", PDict [("wait_for_model", PBool true)]);
                ("parameters", PDict [("max_new_tokens", PInt 400)])] in
       resp <- post w {| url := api_url; headers := headers;
                         json := payload; timeout := 60 |} ;;
       (if (400 <=? status_code resp)%Z && (status_code resp <? 600)%Z
        then raise (HTTPError (status_code resp)) else ret tt) ;;;
       data <- match body resp with
               | Some d => ret d
               | None => raise JSONDecodeError
               end ;;
       lift (hf_text data))%py
  end.

End Builtins.

Definition build_prompt (niche : string) : string :=
  "
You are an assistant that writes a clear, helpful 450-700 word blog post for humans.
Niche: " ++ niche ++ "
Output format:
YAML frontmatter with title and date, then markdown body.
Include an H1 title, short intro, 3 subheadings (H2), one short conclusion, and one simple call-to-action line at the end that links to https://example.com/affiliate (placeholder).
Be concise, avoid made-up facts, and keep it practical.
".

(** The name part of the file name in [save_markdown]:
    the characters of [title.lower()], each kept if [isalnum] and else
    replaced by a hyphen, joined, cut by [[:60]] and stripped by
    [strip("-")] *)
Definition safe (title : string) : string :=
  strip_chars "-"
    (take 60
       (join_empty
          (map (fun c => if str_isalnum c then c else "-")
               (chars_of (lower title))))).

(** The join of the directory and the file name is written as the
    concatenation with a slash, as it is for [posts] and every directory
    name without a slash other than the empty one and [.]. *)
Definition save_markdown (w : world) (title content out_dir : string) : M string :=
  (date <- today w ;;
   let filename := date ++ "-" ++ safe title ++ ".md" in
   mkdir w out_dir ;;;
   let path := out_dir ++ "/" ++ filename in
   write_file w path content ;;;
   ret path)%py.

(** The loop of [parse_title_from_output] over the lines. *)
Fixpoint first_heading (lines : list string) : option string :=
  match lines with
  | [] => None
  | line :: rest =>
      if startswith "#" (strip line)
      then Some (strip (lstrip_chars "# " (strip line)))
      else first_heading rest
  end.

Definition parse_title_from_output (text : string) : string :=
  match first_heading (splitlines text) with
  | Some title => title
  | None => "Auto Generated Post"
  end.

(** The generators' result where [main] uses it as a string: anything
    else has no [splitlines]. *)
Definition as_str (v : pyval) : res string :=
  match v with
  | PStr s => Ok s
  | _ => Raise AttributeError
  end.

(** The block that [main] prepends. *)
Definition front (title date : string) : string :=
  "---" ++ LF ++ "title: " ++ QUOTE ++ title ++ QUOTE ++ LF
  ++ "date: " ++ date ++ LF ++ "---" ++ LF ++ LF.

(** The frontmatter step of [main], for the date its clock read gives. *)
Definition with_front (date out : string) : string :=
  let title := parse_title_from_output out in
  if negb (startswith "---" (lstrip out))
  then front title date ++ out
  else out.

Definition ensure_front (w : world) (title out : string) : M string :=
  (if negb (startswith "---" (lstrip out))
   then date <- today w ;; ret (front title date ++ out)
   else ret out)%py.

(** [main] after the generator has returned [out]. *)
Definition finish (w : world) (out : pyval) : M unit :=
  (text <- lift (as_str out) ;;
   let title := parse_title_from_output text in
   post <- ensure_front w title text ;;
   path <- save_markdown w title post "posts" ;;
   print ("Saved: " ++ path))%py.

Section Run.

Variable str_of : pyval -> string.

Definition main (w : world) : M unit :=
  (let niche := getenv (environ w) "NICHE" "budget camping gear for beginners" in
   let prompt := build_prompt niche in
   print ("Generating post for niche: " ++ niche) ;;;
   out <- (if USE_OPENAI (environ w)
           then gen_with_openai w prompt
           else gen_with_hf str_of w prompt) ;;
   finish w out)%py.

(** A whole run: the result and the events in order. *)
Definition run (w : world) : res unit * list event :=
  (fst (main w init), trace (snd (main w init))).

End Run.

(** The driver with one generator [gen] in the place of the choice. *)
Definition main_with (w : world) (gen : world -> string -> M pyval) : M unit :=
  (let niche := getenv (environ w) "NICHE" "budget camping gear for beginners" in
   print ("Generating post for niche: " ++ niche) ;;;
   out <- gen w (build_prompt niche) ;;
   finish w out)%py.

(** A computation appends to the trace events of [P] only, and a value
    it returns is in [Q]. *)
Definition emits {A} (P : event -> Prop) (Q : A -> Prop) (m : M A) : Prop :=
  forall st, exists evs,
    trace (snd (m st)) = (trace st ++ evs)%list /\
    Forall P evs /\
    match fst (m st) with
    | Ok a => Q a
    | Raise _ => True
    end.

(** ** The claims' words, for comparison with the code *)

(** Two strings compared without regard to case. *)
Fixpoint caseless_eqb (a b : string) : bool :=
  match a, b with
  | EmptyString, EmptyString => true
  | String x a', String y b' =>
      Ascii.eqb (lower_char x) (lower_char y) && caseless_eqb a' b'
  | _, _ => false
  end.

(** The flag as the interface words it: unset, or one of [1], [true],
    [yes] without regard to case. *)
Definition flag_selects_openai (flag : option string) : Prop :=
  match flag with
  | None => True
  | Some v =>
      caseless_eqb v "1" = true \/ caseless_eqb v "true" = true
      \/ caseless_eqb v "yes" = true
  end.

(** The slug as the data model words it: the lowercased title with every
    non-alphanumeric character replaced by a hyphen, truncated to 60
    characters, leading and trailing hyphens stripped. *)
Definition hyphenate (c : ascii) : ascii :=
  if isalnum c then c else "-"%char.

Definition slug_spec (title : string) : string :=
  strip_by (Ascii.eqb "-"%char) (take 60 (map_chars hyphenate (lower title))).

(** A lowercase alphanumeric character, or a hyphen. *)
Definition slug_char (c : ascii) : bool :=
  Ascii.eqb c "-"%char || (isalnum c && negb (isupper c)).

(** One of [a-z], [0-9] and the hyphen. *)
Definition ascii_slug_char (c : ascii) : bool :=
  between 97 122 c || between 48 57 c || (code c =? 45)%N.

(** A character of a plain file name: no path separator, no dot, no
    whitespace and no control character. *)
Definition plain_name_char (c : ascii) : bool :=
  negb (Ascii.eqb c "/"%char) && negb (Ascii.eqb c "\"%char)
  && negb (Ascii.eqb c "."%char) && negb (isspace c)
  && negb (between 0 31 c) && negb (code c =? 127)%N.

(** The title as the claim words it: the first line that begins with the
    marker, the marker and the surrounding whitespace stripped. *)
Fixpoint first_marked (lines : list string) : option string :=
  match lines with
  | [] => None
  | line :: rest =>
      if startswith "#" line
      then Some (strip (lstrip_chars "# " (strip line)))
      else first_marked rest
  end.

Definition title_spec (text : string) : string :=
  match first_marked (splitlines text) with
  | Some title => title
  | None => "Auto Generated Post"
  end.

(** A heading line for the code: it begins with the marker once the
    whitespace around it is stripped. *)
Definition is_heading (line : string) : bool := startswith "#" (strip line).

(** The title the code takes from a heading line. *)
Definition heading_title (line : string) : string :=
  strip (lstrip_chars "# " (strip line)).

End GeneratePost.

(** ** Sample runs *)

Module Samples.
Import PyStr PyVal Effects GeneratePost.

(** A stand-in for [str] in the sample runs. *)
Definition sample_str (v : pyval) : string := "<object>".

(** A world where every call succeeds: the listing is [catalog], the chat
    answers [reply], the inference endpoint answers 200 with [hf_body]. *)
Definition sample_world (env : gmap string string) (catalog : list pyval)
           (reply : string) (hf_body : pyval) : world :=
  {| environ := env;
     today_iso := fun _ => "2026-11-03";
     model_list := Ok catalog;
     chat_create := fun _ => Ok [Some reply];
     http_post := fun _ => Ok {| status_code := 200; body := Some hf_body |};
     fs_mkdir := fun _ => Ok tt;
     fs_write := fun _ _ => Ok tt |}.

Definition hf_env : gmap string string :=
  <["USE_OPENAI" := "false"]> (<["HF_INFERENCE_API_TOKEN" := "hf_token"]> ∅).

Definition openai_env : gmap string string :=
  <["USE_OPENAI" := "TRUE"]> (<["OPENAI_API_KEY" := "sk-key"]> ∅).

(** [[{"generated_text": text}]] *)
Definition hf_reply (text : string) : pyval :=
  PList [PDict [("generated_text", PStr text)]].

Definition camp_text : string := "# Camp Smart" ++ LF ++ LF ++ "Body...".

Definition camp_world : world :=
  sample_world hf_env [] EmptyString (hf_reply camp_text).

(** A generated text whose frontmatter is indented by one space. *)
Definition indented_text : string :=
  " ---" ++ LF ++ "title: x" ++ LF ++ "---" ++ LF ++ "Body".

Definition indented_world : world :=
  sample_world hf_env [] EmptyString (hf_reply indented_text).

(** The listing as the provider sends it: model objects. *)
Definition model_object (id : string) : pyval :=
  PDict [("id", PStr id); ("object", PStr "model"); ("owned_by", PStr "system")].

Definition catalog_with_mini : list pyval :=
  [model_object "gpt-4o"; model_object "gpt-4o-mini"].

Definition openai_world : world :=
  sample_world openai_env catalog_with_mini ("  # Hello" ++ LF) PNone.

(** No credential at all: the flag unset, and the flag set to [no]. *)
Definition bare_world : world :=
  sample_world ∅ [] EmptyString PNone.

Definition bare_hf_world : world :=
  sample_world (<["USE_OPENAI" := "no"]> ∅) [] EmptyString PNone.

End Samples.

(** ** The requests the generators build, and further sample worlds *)

Module Requests.
Import PyStr PyVal Effects GeneratePost Samples.

(** The POST of [gen_with_hf] for a token and a prompt. *)
Definition hf_request (token prompt : string) : http_request :=
  {| url := "https://api-inference.huggingface.co/models/gpt2";
     headers := [("Authorization", "Bearer " ++ token)];
     json := PDict [("inputs", PStr prompt);
                    ("options", PDict [("wait_for_model", PBool true)]);
                    ("parameters", PDict [("max_new_tokens", PInt 400)])];
     timeout := 60 |}.

(** The chat request of [gen_with_openai] for a listing and a prompt. *)
Definition openai_request (data : list pyval) (prompt : string) : chat_request :=
  {| model := pick_model data;
     messages := [("user", prompt)];
     temperature := 7 # 10;
     max_tokens := 800 |}.

(** A value that is not a string. *)
Definition not_str (v : pyval) : bool :=
  match v with
  | PStr _ => false
  | _ => true
  end.

(** The status codes on which [raise_for_status] raises. *)
Definition is_error_status (status : Z) : bool :=
  (400 <=? status)%Z && (status <? 600)%Z.

(** A world given by its environment and the providers' answers; the
    file system accepts everything. *)
Definition world_of (env : gmap string string) (listing : res (list pyval))
           (chat : res (list (option string))) (answer : res http_response) : world :=
  {| environ := env;
     today_iso := fun n => if Nat.eqb n 0 then "2026-11-03" else "2026-11-04";
     model_list := listing;
     chat_create := fun _ => chat;
     http_post := fun _ => answer;
     fs_mkdir := fun _ => Ok tt;
     fs_write := fun _ _ => Ok tt |}.

Definition empty_keys_env : gmap string string :=
  <["OPENAI_API_KEY" := EmptyString]> (<["HF_INFERENCE_API_TOKEN" := EmptyString]> ∅).

Definition empty_keys_world : world :=
  world_of empty_keys_env (Ok []) (Ok []) (Raise RequestException).

(** Provider B answers 503 with an error body. *)
Definition busy_world : world :=
  world_of hf_env (Ok []) (Ok [])
    (Ok {| status_code := 503;
           body := Some (PDict [("error", PStr "Model gpt2 is currently loading")]) |}).

(** Provider B answers 200 with a body that is not JSON. *)
Definition html_world : world :=
  world_of hf_env (Ok []) (Ok []) (Ok {| status_code := 200; body := None |}).

(** Provider B answers [[{"generated_text": null}]]. *)
Definition null_text_world : world :=
  world_of hf_env (Ok []) (Ok [])
    (Ok {| status_code := 200;
           body := Some (PList [PDict [("generated_text", PNone)]]) |}).

(** Provider A: the listing fails; the chat has no choice; the first
    choice has no content. *)
Definition no_listing_world : world :=
  world_of openai_env (Raise OpenAIError) (Ok [Some "text"]) (Raise RequestException).

Definition no_choice_world : world :=
  world_of openai_env (Ok catalog_with_mini) (Ok []) (Raise RequestException).

Definition null_content_world : world :=
  world_of openai_env (Ok catalog_with_mini) (Ok [None]) (Raise RequestException).

(** Provider A answers with an indented frontmatter. *)
Definition padded_world : world :=
  world_of openai_env (Ok catalog_with_mini)
    (Ok [Some ("  ---" ++ LF ++ "title: t" ++ LF ++ "---" ++ LF ++ "Body  ")])
    (Raise RequestException).

(** A world whose file system refuses the directory. *)
Definition readonly_world : world :=
  {| environ := hf_env;
     today_iso := fun _ => "2026-11-03";
     model_list := Ok [];
     chat_create := fun _ => Ok [];
     http_post := fun _ => Raise RequestException;
     fs_mkdir := fun _ => Raise OSError;
     fs_write := fun _ _ => Ok tt |}.

(** The file part of a run: nothing, the directory, the directory and the
    file, or these and the closing print. *)
Inductive file_part : res unit -> list event -> Prop :=
| FpNone (e : exn) : file_part (Raise e) []
| FpMkdir (e : exn) : file_part (Raise e) [EvMkdir "posts"]
| FpWrite (e : exn) (date title content : string) :
    file_part (Raise e)
      [EvMkdir "posts";
       EvWrite ("posts/" ++ date ++ "-" ++ safe title ++ ".md") content]
| FpSaved (date title content : string) :
    file_part (Ok tt)
      [EvMkdir "posts";
       EvWrite ("posts/" ++ date ++ "-" ++ safe title ++ ".md") content;
       EvPrint ("Saved: " ++ "posts/" ++ date ++ "-" ++ safe title ++ ".md")].

End Requests.

(** ** The slug over all of Unicode

    The strings above have 8-bit characters.  The slug of [save_markdown]
    is modelled a second time over strings of arbitrary code points, with
    the character database as a parameter, so that what is proved of it
    holds for every title. *)

Module Unicode.
Import PyStr GeneratePost.

(** What the slug reads of the Unicode character database: [str.isalnum]
    and [str.isupper] on one character, and [str.lower], which is a
    function of the whole string (it can lengthen it, and the lowercase of
    a character can depend on its neighbours). *)
Record ucd : Type := {
  u_isalnum : N -> bool;
  u_isupper : N -> bool;
  u_lower : list N -> list N }.

(** The code point of the hyphen. *)
Definition hyphen : N := 45.

(** [s.lstrip("-")], [s.rstrip("-")] and [s.strip("-")] for the one
    character [c] *)
Fixpoint lstrip_cp (c : N) (s : list N) : list N :=
  match s with
  | [] => []
  | x :: r => if N.eqb x c then lstrip_cp c r else s
  end.

Fixpoint rstrip_cp (c : N) (s : list N) : list N :=
  match s with
  | [] => []
  | x :: r =>
      match rstrip_cp c r with
      | [] => if N.eqb x c then [] else [x]
      | y :: r' => x :: y :: r'
      end
  end.

Definition strip_cp (c : N) (s : list N) : list N :=
  rstrip_cp c (lstrip_cp c s).

(** The name part of the file name in [save_markdown], for a title of any
    characters: the characters of [title.lower()], each kept if [isalnum]
    and else replaced by a hyphen, joined, cut by [[:60]] and stripped by
    [strip("-")]. *)
Definition usafe (U : ucd) (title : list N) : list N :=
  strip_cp hyphen
    (firstn 60
       (concat
          (map (fun c => if u_isalnum U c then [c] else [hyphen])
               (u_lower U title)))).

(** The slug as the data model words it. *)
Definition uhyphenate (U : ucd) (c : N) : N :=
  if u_isalnum U c then c else hyphen.

Definition uslug_spec (U : ucd) (title : list N) : list N :=
  strip_cp hyphen (firstn 60 (map (uhyphenate U) (u_lower U title))).

(** A lowercase alphanumeric character, or a hyphen. *)
Definition uslug_char (U : ucd) (c : N) : bool :=
  N.eqb c hyphen || (u_isalnum U c && negb (u_isupper U c)).

(** The code points of an 8-bit string. *)
Fixpoint codes (s : string) : list N :=
  match s with
  | EmptyString => []
  | String c r => code c :: codes r
  end.

(** An excerpt of the database: Python's values on U+0000..U+00FF, on
    U+0130 (capital I with dot above: alphanumeric, uppercase, and its
    lowercase is the two characters U+0069 U+0307), on U+0307 (the
    combining dot above: not alphanumeric) and on U+03D2 (the upsilon with
    hook symbol: alphanumeric, uppercase, and without a lowercase form).
    Other code points are outside the excerpt; the lemmas that use it name
    characters inside it only. *)
Definition excerpt_isalnum (n : N) : bool :=
  if (n <? 256)%N then isalnum (ascii_of_N n)
  else (n =? 304)%N || (n =? 978)%N.

Definition excerpt_isupper (n : N) : bool :=
  if (n <? 256)%N then isupper (ascii_of_N n)
  else (n =? 304)%N || (n =? 978)%N.

Definition excerpt_lower_char (n : N) : list N :=
  if (n <? 256)%N then [code (lower_char (ascii_of_N n))]
  else if (n =? 304)%N then [105; 775]%N
  else [n].

Definition excerpt : ucd :=
  {| u_isalnum := excerpt_isalnum;
     u_isupper := excerpt_isupper;
     u_lower := flat_map excerpt_lower_char |}.

End Unicode.

(** A directory name for which the join of [save_markdown] is the plain
    concatenation with a slash: not empty, not [.], and without a slash. *)
Definition plain_dir (dir : string) : bool :=
  negb (String.eqb dir EmptyString) && negb (String.eqb dir ".")
  && PyStr.all_chars (fun c => negb (Ascii.eqb c "/"%char)) dir.

(** * Properties *)

Import PyStr PyVal Effects GeneratePost Samples Requests Unicode.

(** ** Strings *)

Section StringFacts.

Variable p : ascii -> bool.

Lemma append_nil (s : string) : EmptyString ++ s = s.
Proof. reflexivity. Qed.

Lemma append_cons (c : ascii) (r s : string) : String c r ++ s = String c (r ++ s).
Proof. reflexivity. Qed.

Lemma prefix_app (pre rest : string) : String.prefix pre (pre ++ rest) = true.
Proof.
  induction pre as [|c pre IH].
  - rewrite append_nil; destruct rest; reflexivity.
  - rewrite append_cons; simpl.
    destruct (ascii_dec c c); [exact IH | congruence].
Qed.

Lemma prefix_split (pre s : string) :
  String.prefix pre s = true -> exists rest, s = pre ++ rest.
Proof.
  revert s; induction pre as [|c pre IH]; intros s H.
  - exists s; reflexivity.
  - destruct s as [|d s]; simpl in H; [discriminate|].
    destruct (ascii_dec c d) as [->|]; [|discriminate].
    destruct (IH s H) as [rest ->]. exists rest; reflexivity.
Qed.

Lemma app_assoc_str (a b c : string) : (a ++ b) ++ c = a ++ (b ++ c).
Proof.
  induction a as [|x a IH]; [reflexivity|].
  rewrite !append_cons, IH; reflexivity.
Qed.

Lemma lstrip_by_head (c : ascii) (r : string) :
  p c = false -> lstrip_by p (String c r) = String c r.
Proof. intros H; simpl; rewrite H; reflexivity. Qed.

Lemma lstrip_by_first (s : string) :
  match lstrip_by p s with
  | EmptyString => True
  | String c _ => p c = false
  end.
Proof.
  induction s as [|c r IH]; simpl; [exact I|].
  destruct (p c) eqn:E; [exact IH | exact E].
Qed.

Lemma rstrip_by_first (c : ascii) (r : string) :
  p c = false -> exists r', rstrip_by p (String c r) = String c r'.
Proof.
  intros H; simpl. destruct (rstrip_by p r).
  - rewrite H; eauto.
  - eauto.
Qed.

Lemma rstrip_by_last (s : string) :
  match last_char (rstrip_by p s) with
  | None => True
  | Some c => p c = false
  end.
Proof.
  induction s as [|c r IH]; simpl; [exact I|].
  destruct (rstrip_by p r) as [|d r'] eqn:E.
  - destruct (p c) eqn:Ec; simpl; [exact I | exact Ec].
  - exact IH.
Qed.

Lemma length_lstrip_by (s : string) :
  String.length (lstrip_by p s) <= String.length s.
Proof. induction s as [|c r IH]; simpl; [lia|]. destruct (p c); simpl; lia. Qed.

Lemma length_rstrip_by (s : string) :
  String.length (rstrip_by p s) <= String.length s.
Proof.
  induction s as [|c r IH]; simpl; [lia|].
  destruct (rstrip_by p r); [destruct (p c)|]; simpl in *; lia.
Qed.

Lemma length_take (n : nat) (s : string) : String.length (take n s) <= n.
Proof.
  revert s; induction n as [|n IH]; intros [|c r]; simpl; try lia.
  specialize (IH r); lia.
Qed.

Variable q : ascii -> bool.

Lemma all_chars_lstrip_by (s : string) :
  all_chars q s = true -> all_chars q (lstrip_by p s) = true.
Proof.
  induction s as [|c r IH]; simpl; [reflexivity|].
  intros H; apply andb_prop in H as [Hc Hr].
  destruct (p c); [auto | simpl; rewrite Hc, Hr; reflexivity].
Qed.

Lemma all_chars_rstrip_by (s : string) :
  all_chars q s = true -> all_chars q (rstrip_by p s) = true.
Proof.
  induction s as [|c r IH]; simpl; [reflexivity|].
  intros H; apply andb_prop in H as [Hc Hr]. specialize (IH Hr).
  destruct (rstrip_by p r) as [|d r'].
  - destruct (p c); simpl; [reflexivity | rewrite Hc; reflexivity].
  - change (all_chars q (String c (String d r'))) with (q c && all_chars q (String d r')).
    rewrite Hc, IH; reflexivity.
Qed.

Lemma all_chars_take (n : nat) (s : string) :
  all_chars q s = true -> all_chars q (take n s) = true.
Proof.
  revert s; induction n as [|n IH]; intros [|c r]; simpl; try reflexivity.
  intros H; apply andb_prop in H as [Hc Hr]. rewrite Hc, (IH r Hr); reflexivity.
Qed.

End StringFacts.

Lemma strip_by_ext (p q : ascii -> bool) (s : string) :
  (forall c, p c = q c) -> strip_by p s = strip_by q s.
Proof.
  intros E. unfold strip_by.
  assert (L : forall t, lstrip_by p t = lstrip_by q t).
  { induction t as [|c r IH]; simpl; [reflexivity|]. rewrite E, IH; reflexivity. }
  assert (R : forall t, rstrip_by p t = rstrip_by q t).
  { induction t as [|c r IH]; simpl; [reflexivity|]. rewrite E, IH; reflexivity. }
  rewrite L, R; reflexivity.
Qed.

Lemma strip_by_no_edge (p : ascii -> bool) (s : string) :
  match strip_by p s with
  | EmptyString => True
  | String c _ => p c = false
  end /\
  match last_char (strip_by p s) with
  | None => True
  | Some c => p c = false
  end.
Proof.
  unfold strip_by; split; [|apply rstrip_by_last].
  pose proof (lstrip_by_first p s) as H.
  destruct (lstrip_by p s) as [|c r]; [exact I|].
  destruct (rstrip_by_first p c r H) as [r' ->]; exact H.
Qed.

Lemma contains_prefix (needle hay : string) :
  String.prefix needle hay = true -> contains needle hay = true.
Proof. intros H; destruct hay; cbn [contains]; rewrite H; reflexivity. Qed.

Lemma contains_app (needle pre rest : string) :
  contains needle (pre ++ needle ++ rest) = true.
Proof.
  induction pre as [|c pre IH].
  - rewrite append_nil. apply contains_prefix, prefix_app.
  - rewrite append_cons; cbn [contains]. rewrite IH. apply orb_true_r.
Qed.

(** ** The slug of [save_markdown] *)

Lemma join_chars (s : string) :
  join_empty (map (fun c => if str_isalnum c then c else "-") (chars_of s))
  = map_chars hyphenate s.
Proof.
  induction s as [|c r IH]; [reflexivity|].
  cbn [chars_of map join_empty map_chars]. rewrite IH.
  unfold hyphenate, str_isalnum; cbn [all_chars].
  rewrite andb_true_r. destruct (isalnum c); reflexivity.
Qed.

Lemma char_in_hyphen (c : ascii) : char_in c "-" = Ascii.eqb "-"%char c.
Proof. cbn [char_in]. rewrite orb_false_r. apply Ascii.eqb_sym. Qed.

Lemma hyphenate_lower (c : ascii) : slug_char (hyphenate (lower_char c)) = true.
Proof. destruct c as [[] [] [] [] [] [] [] []]; vm_compute; reflexivity. Qed.

Lemma all_chars_hyphenate_lower (s : string) :
  all_chars slug_char (map_chars hyphenate (lower s)) = true.
Proof.
  induction s as [|c r IH]; [reflexivity|].
  unfold lower in *; cbn [map_chars all_chars].
  rewrite hyphenate_lower, IH; reflexivity.
Qed.

Lemma startswith_char (d c : ascii) (r : string) :
  startswith (String d EmptyString) (String c r) = Ascii.eqb d c.
Proof.
  unfold startswith. cbn [String.prefix].
  destruct (ascii_dec d c) as [->|N].
  - rewrite Ascii.eqb_refl. destruct r; reflexivity.
  - symmetry. apply Ascii.eqb_neq. exact N.
Qed.

Lemma safe_is_slug_spec (title : string) : safe title = slug_spec title.
Proof.
  unfold safe, slug_spec, strip_chars. rewrite join_chars.
  apply strip_by_ext, char_in_hyphen.
Qed.

(** On titles of 8-bit characters the name part of the file name is made
    of lowercase alphanumerics and hyphens only, neither begins nor ends
    with a hyphen, and is at most 60 characters long. *)
Lemma slug_of_8bit_title (title : string) :
  safe title = slug_spec title /\
  all_chars slug_char (safe title) = true /\
  startswith "-" (safe title) = false /\
  endswith_char "-"%char (safe title) = false /\
  String.length (safe title) <= 60.
Proof.
  pose proof (safe_is_slug_spec title) as E.
  split; [exact E|]. rewrite E; clear E. unfold slug_spec.
  set (body := take 60 (map_chars hyphenate (lower title))).
  destruct (strip_by_no_edge (Ascii.eqb "-"%char) body) as [Hfirst Hlast].
  repeat split.
  - unfold strip_by. apply all_chars_rstrip_by, all_chars_lstrip_by.
    apply all_chars_take, all_chars_hyphenate_lower.
  - destruct (strip_by _ body) as [|c r]; [reflexivity|].
    rewrite startswith_char. exact Hfirst.
  - unfold endswith_char. destruct (last_char _); [exact Hlast | reflexivity].
  - unfold strip_by.
    pose proof (length_rstrip_by (Ascii.eqb "-"%char)
                  (lstrip_by (Ascii.eqb "-"%char) body)) as Hr.
    pose proof (length_lstrip_by (Ascii.eqb "-"%char) body) as Hl.
    pose proof (length_take 60 (map_chars hyphenate (lower title))) as Ht.
    fold body in Ht. lia.
Qed.

(** On an ASCII title the characters of the slug are those of
    [a-z0-9] and the hyphen. *)
Lemma slug_char_ascii (c : ascii) :
  between 0 127 c = true ->
  ascii_slug_char (hyphenate (lower_char c)) = true.
Proof. destruct c as [[] [] [] [] [] [] [] []]; vm_compute; congruence. Qed.

Lemma slug_of_ascii_title (title : string) :
  all_chars (between 0 127) title = true ->
  all_chars ascii_slug_char (safe title) = true.
Proof.
  intros H. rewrite safe_is_slug_spec. unfold slug_spec, strip_by.
  apply all_chars_rstrip_by, all_chars_lstrip_by, all_chars_take.
  induction title as [|c r IH]; [reflexivity|].
  cbn [all_chars] in H. apply andb_prop in H as [Hc Hr].
  unfold lower in *; cbn [map_chars all_chars].
  rewrite (slug_char_ascii c Hc), (IH Hr); reflexivity.
Qed.

Example slug_hello_world : safe "Hello, World! 2024" = "hello--world--2024".
Proof. reflexivity. Qed.

(** ** The title of [parse_title_from_output] *)

Lemma first_heading_found (pre : list string) (line : string) (post : list string) :
  Forall (fun l => is_heading l = false) pre ->
  is_heading line = true ->
  first_heading (pre ++ line :: post)%list = Some (heading_title line).
Proof.
  intros Hpre Hline. induction Hpre as [|l pre Hl _ IH]; cbn [app first_heading].
  - fold (is_heading line). rewrite Hline. reflexivity.
  - fold (is_heading l). rewrite Hl. exact IH.
Qed.

Lemma first_heading_none (lines : list string) :
  Forall (fun l => is_heading l = false) lines -> first_heading lines = None.
Proof.
  intros H; induction H as [|l lines Hl _ IH]; cbn [first_heading]; [reflexivity|].
  fold (is_heading l). rewrite Hl. exact IH.
Qed.

Lemma first_heading_cases (lines : list string) :
  (exists pre line post,
      lines = (pre ++ line :: post)%list /\
      Forall (fun l => is_heading l = false) pre /\ is_heading line = true)
  \/ Forall (fun l => is_heading l = false) lines.
Proof.
  induction lines as [|l lines IH].
  - right; constructor.
  - destruct (is_heading l) eqn:Hl.
    + left. exists [], l, lines. repeat split; [constructor | exact Hl].
    + destruct IH as [(pre & line & post & -> & Hpre & Hline)|Hall].
      * left. exists (l :: pre), line, post.
        repeat split; [constructor; assumption | exact Hline].
      * right. constructor; assumption.
Qed.

(** C4, as amended.  The title is taken from the first line that begins
    with [#] once the whitespace around the line is stripped: it is that
    stripped line without its leading [#] and space characters, stripped
    again.  Without such a line the title is the placeholder.  One of the
    two cases always applies. *)
Theorem parse_title_first_heading (text : string) :
  (forall pre line post,
      splitlines text = (pre ++ line :: post)%list ->
      Forall (fun l => is_heading l = false) pre ->
      is_heading line = true ->
      parse_title_from_output text = heading_title line) /\
  (Forall (fun l => is_heading l = false) (splitlines text) ->
   parse_title_from_output text = "Auto Generated Post") /\
  ((exists pre line post,
       splitlines text = (pre ++ line :: post)%list /\
       Forall (fun l => is_heading l = false) pre /\ is_heading line = true)
   \/ Forall (fun l => is_heading l = false) (splitlines text)).
Proof.
  unfold parse_title_from_output. repeat split.
  - intros pre line post E Hpre Hline.
    rewrite E, (first_heading_found pre line post Hpre Hline). reflexivity.
  - intros H. rewrite (first_heading_none _ H). reflexivity.
  - apply first_heading_cases.
Qed.

Lemma parse_title_first_heading_witness :
  parse_title_from_output ("intro" ++ LF ++ "# My Great Post" ++ LF ++ "body")
  = "My Great Post" /\
  parse_title_from_output ("no heading" ++ LF ++ "at all")
  = "Auto Generated Post".
Proof.
  split.
  - apply (proj1 (parse_title_first_heading
                    ("intro" ++ LF ++ "# My Great Post" ++ LF ++ "body"))
             ["intro"] "# My Great Post" ["body"]).
    + reflexivity.
    + repeat constructor.
    + reflexivity.
  - apply (proj1 (proj2 (parse_title_first_heading
                           ("no heading" ++ LF ++ "at all")))).
    vm_compute. repeat constructor.
Defined.

(** C4, as stated, fails: an indented heading line does not begin with the
    marker, yet the code takes the title from it. *)
Lemma parse_title_indented_heading :
  parse_title_from_output (" # A" ++ LF ++ "# B") = "A" /\
  title_spec (" # A" ++ LF ++ "# B") = "B" /\
  parse_title_from_output (" # A" ++ LF ++ "# B")
  <> title_spec (" # A" ++ LF ++ "# B").
Proof. repeat split; vm_compute; congruence. Qed.

(** ** The prompt *)

(** C9.  The prompt is a fixed text around the niche: it contains the
    niche, and nothing else in it varies. *)
Theorem build_prompt_embeds_niche :
  exists head tail : string,
    forall niche : string,
      build_prompt niche = head ++ niche ++ tail /\
      contains niche (build_prompt niche) = true.
Proof.
  eexists _, _. intros niche. split.
  - unfold build_prompt. reflexivity.
  - unfold build_prompt. apply contains_app.
Qed.

(** ** Runs: what a computation appends to the trace and what it returns *)

Section Steps.

Variable P : event -> Prop.

Lemma emits_ret {A} (Q : A -> Prop) (a : A) : Q a -> emits P Q (ret a).
Proof. intros H st. exists []. cbn. rewrite List.app_nil_r. auto. Qed.

Lemma emits_raise {A} (Q : A -> Prop) (e : exn) : emits P Q (raise e).
Proof. intros st. exists []. cbn. rewrite List.app_nil_r. auto. Qed.

Lemma emits_lift {A} (Q : A -> Prop) (r : res A) :
  (forall a, r = Ok a -> Q a) -> emits P Q (lift r).
Proof.
  intros H st. exists []. cbn. rewrite List.app_nil_r.
  repeat split; [constructor|]. destruct r; auto.
Qed.

Lemma emits_emit (Q : unit -> Prop) (e : event) :
  P e -> Q tt -> emits P Q (emit e).
Proof. intros He Hq st. exists [e]. cbn. auto. Qed.

Lemma emits_today (Q : string -> Prop) (w : world) :
  (forall n, Q (today_iso w n)) -> emits P Q (today w).
Proof. intros H st. exists []. cbn. rewrite List.app_nil_r. auto. Qed.

Lemma emits_bind {A B} (Q : A -> Prop) (R : B -> Prop) (m : M A) (k : A -> M B) :
  emits P Q m -> (forall a, Q a -> emits P R (k a)) -> emits P R (bind m k).
Proof.
  intros Hm Hk st. destruct (Hm st) as (evs1 & E1 & F1 & Q1).
  unfold bind. destruct (m st) as [[a|e] st1]; cbn in *.
  - destruct (Hk a Q1 st1) as (evs2 & E2 & F2 & Q2).
    exists (evs1 ++ evs2)%list. rewrite E2, E1, <- List.app_assoc.
    repeat split; [apply Forall_app; auto | exact Q2].
  - exists evs1. auto.
Qed.

Lemma emits_call {A} (e : event) (r : res A) :
  P e -> emits P (fun _ => True) (bind (emit e) (fun _ => lift r)).
Proof.
  intros He. apply emits_bind with (Q := fun _ => True);
    [apply emits_emit; auto | intros; apply emits_lift; auto].
Qed.

Hypothesis P_models : P EvModelList.
Hypothesis P_chat : forall req, P (EvChatCreate req).

Lemma gen_with_openai_emits (w : world) (prompt : string) :
  emits P (fun _ => True) (gen_with_openai w prompt).
Proof.
  unfold gen_with_openai.
  destruct (negb (truthy (environ w !! "OPENAI_API_KEY"))); [apply emits_raise|].
  apply emits_bind with (Q := fun _ => True).
  { apply emits_call; auto. }
  intros data _. apply emits_bind with (Q := fun _ => True).
  { apply emits_call; auto. }
  intros choices _. apply emits_bind with (Q := fun _ => True).
  { apply emits_lift; auto. }
  intros [content|] _; [apply emits_ret; exact I | apply emits_raise].
Qed.

End Steps.

Section StepsOfTheScript.

Variable P : event -> Prop.
Variable str_of : pyval -> string.

Lemma gen_with_hf_emits (w : world) (prompt : string) :
  (forall req, P (EvHttpPost req)) ->
  emits P (fun _ => True) (gen_with_hf str_of w prompt).
Proof.
  intros Hpost. unfold gen_with_hf.
  destruct (environ w !! "HF_INFERENCE_API_TOKEN") as [[|c token]|];
    try apply emits_raise.
  apply emits_bind with (Q := fun _ => True).
  { apply emits_call; auto. }
  intros resp _. apply emits_bind with (Q := fun _ => True).
  { destruct (_ && _); [apply emits_raise | apply emits_ret; exact I]. }
  intros _ _. apply emits_bind with (Q := fun _ => True).
  { destruct (body resp); [apply emits_ret; exact I | apply emits_raise]. }
  intros data _. apply emits_lift; auto.
Qed.

Lemma ensure_front_emits (w : world) (text : string) :
  emits P (fun post => exists date, post = with_front date text)
    (ensure_front w (parse_title_from_output text) text).
Proof.
  unfold ensure_front, with_front.
  destruct (negb (startswith "---" (lstrip text))).
  - apply emits_bind with (Q := fun date => exists n, date = today_iso w n).
    + apply emits_today. eauto.
    + intros date _. apply emits_ret. eauto.
  - apply emits_ret. exists EmptyString. reflexivity.
Qed.

Hypothesis P_print : forall line, P (EvPrint line).
Hypothesis P_mkdir : forall dir, P (EvMkdir dir).

Lemma save_markdown_emits (w : world) (title content out_dir : string) :
  (forall path, P (EvWrite path content)) ->
  emits P (fun _ => True) (save_markdown w title content out_dir).
Proof.
  intros Hwrite. unfold save_markdown.
  apply emits_bind with (Q := fun _ => True); [apply emits_today; auto|].
  intros date _. apply emits_bind with (Q := fun _ => True).
  { apply emits_call; auto. }
  intros _ _. apply emits_bind with (Q := fun _ => True).
  { apply emits_call; auto. }
  intros _ _. apply emits_ret. exact I.
Qed.

Hypothesis P_write : forall path date text, P (EvWrite path (with_front date text)).

Lemma finish_emits (w : world) (out : pyval) :
  emits P (fun _ => True) (finish w out).
Proof.
  unfold finish.
  apply emits_bind with (Q := fun _ => True); [apply emits_lift; auto|].
  intros text _.
  eapply emits_bind; [apply ensure_front_emits|].
  intros post [date ->].
  apply emits_bind with (Q := fun _ => True).
  { apply save_markdown_emits. intros path. apply P_write. }
  intros path _. apply emits_emit; auto.
Qed.

Lemma main_with_emits (w : world) (gen : world -> string -> M pyval) :
  (forall prompt, emits P (fun _ => True) (gen w prompt)) ->
  emits P (fun _ => True) (main_with w gen).
Proof.
  intros Hgen. unfold main_with.
  apply emits_bind with (Q := fun _ => True); [apply emits_emit; auto|].
  intros _ _. apply emits_bind with (Q := fun _ => True); [apply Hgen|].
  intros out _. apply finish_emits.
Qed.

End StepsOfTheScript.

Lemma main_unfold (str_of : pyval -> string) (w : world) :
  main str_of w =
  if USE_OPENAI (environ w)
  then main_with w gen_with_openai
  else main_with w (gen_with_hf str_of).
Proof. unfold main, main_with. destruct (USE_OPENAI (environ w)); reflexivity. Qed.

Lemma emits_run {A} (P : event -> Prop) (Q : A -> Prop) (m : M A) :
  emits P Q m -> Forall P (trace (snd (m init))).
Proof. intros H. destruct (H init) as (evs & -> & F & _). exact F. Qed.

(** Every file a run writes holds the generated text after the frontmatter
    step. *)
Lemma run_writes_with_front (str_of : pyval -> string) (w : world)
      (path content : string) :
  In (EvWrite path content) (snd (run str_of w)) ->
  exists date text, content = with_front date text.
Proof.
  set (P := fun e => forall p c, e = EvWrite p c ->
                     exists date text, c = with_front date text).
  assert (F : Forall P (snd (run str_of w))).
  { unfold run; cbn [snd]. apply emits_run with (Q := fun _ => True).
    rewrite main_unfold.
    destruct (USE_OPENAI (environ w)); apply main_with_emits;
      try (intros; intros ? ? [=]; subst; eauto).
    - intros prompt. apply gen_with_openai_emits; intros; intros ? ? [=].
    - intros prompt. apply gen_with_hf_emits; intros; intros ? ? [=]. }
  intros Hin. rewrite List.Forall_forall in F. exact (F _ Hin path content eq_refl).
Qed.

(** ** The frontmatter step of [main] *)

Lemma front_shape (title date out : string) :
  exists rest, front title date ++ out = "---" ++ rest.
Proof. unfold front. rewrite !app_assoc_str. eexists; reflexivity. Qed.

Lemma lstrip_dashes (rest : string) : lstrip ("---" ++ rest) = "---" ++ rest.
Proof.
  change ("---" ++ rest) with (String "-"%char ("--" ++ rest)).
  apply lstrip_by_head. reflexivity.
Qed.

Lemma startswith_lstrip (s : string) :
  startswith "---" s = true -> lstrip s = s.
Proof. intros H. apply prefix_split in H as [rest ->]. apply lstrip_dashes. Qed.

Lemma with_front_cases (date out : string) :
  (startswith "---" (lstrip out) = true /\ with_front date out = out) \/
  (startswith "---" (lstrip out) = false /\
   with_front date out = front (parse_title_from_output out) date ++ out /\
   startswith "---" (with_front date out) = true).
Proof.
  unfold with_front. destruct (startswith "---" (lstrip out)) eqn:E; cbn [negb].
  - left; auto.
  - right. split; [reflexivity|]. split; [reflexivity|].
    destruct (front_shape (parse_title_from_output out) date out) as [rest ->].
    apply prefix_app.
Qed.

(** C2, as amended.  The Post begins with [---] once its leading whitespace
    is stripped: either the generated text did so already and is the Post,
    or the block was prepended and the Post itself begins with [---].  So
    does every file a run writes. *)
Theorem post_begins_with_frontmatter :
  (forall date out,
      startswith "---" (lstrip (with_front date out)) = true /\
      ((startswith "---" (lstrip out) = true /\ with_front date out = out) \/
       (startswith "---" (lstrip out) = false /\
        with_front date out = front (parse_title_from_output out) date ++ out /\
        startswith "---" (with_front date out) = true))) /\
  (forall str_of w path content,
      In (EvWrite path content) (snd (run str_of w)) ->
      startswith "---" (lstrip content) = true).
Proof.
  assert (A : forall date out, startswith "---" (lstrip (with_front date out)) = true).
  { intros date out.
    destruct (with_front_cases date out) as [[H ->]|(_ & _ & H)]; [exact H|].
    rewrite (startswith_lstrip _ H). exact H. }
  split.
  - intros date out. split; [apply A | apply with_front_cases].
  - intros str_of w path content Hin.
    destruct (run_writes_with_front str_of w path content Hin) as (date & text & ->).
    apply A.
Qed.

Lemma post_begins_with_frontmatter_witness :
  startswith "---"
    (lstrip (with_front "2026-11-03" camp_text)) = true.
Proof.
  apply (proj2 post_begins_with_frontmatter sample_str camp_world
           "posts/2026-11-03-camp-smart.md").
  vm_compute. do 3 right. left. reflexivity.
Defined.

(** C2, as stated, fails: a generated text whose [---] is indented is
    written as it is, and the file begins with a space. *)
Lemma written_post_begins_with_space :
  In (EvWrite "posts/2026-11-03-auto-generated-post.md" indented_text)
     (snd (run sample_str indented_world)) /\
  startswith "---" indented_text = false.
Proof. split; [vm_compute; do 3 right; left; reflexivity | reflexivity]. Qed.

(** C8.  A generated text that starts with [---] passes the frontmatter
    step unchanged, whatever title was extracted from it. *)
Theorem frontmatter_is_kept (date out : string) :
  startswith "---" out = true ->
  with_front date out = out /\
  forall w title st, ensure_front w title out st = (Ok out, st).
Proof.
  intros H. unfold with_front, ensure_front.
  rewrite (startswith_lstrip _ H), H. cbn [negb]. split; reflexivity.
Qed.

Lemma frontmatter_is_kept_witness :
  with_front "2026-11-03" ("---" ++ LF ++ "title: Kept" ++ LF ++ "---" ++ LF ++ "# Other")
  = "---" ++ LF ++ "title: Kept" ++ LF ++ "---" ++ LF ++ "# Other".
Proof.
  apply (frontmatter_is_kept "2026-11-03"
           ("---" ++ LF ++ "title: Kept" ++ LF ++ "---" ++ LF ++ "# Other")).
  reflexivity.
Defined.




(** ** Credentials *)

(** C5.  Without its credential a generator raises before it does anything
    else: the state is as it was, and a run that chose this generator ends
    with the error after its first print, with no request sent and no file
    written. *)
Theorem missing_credential_aborts (str_of : pyval -> string) (w : world) :
  (environ w !! "OPENAI_API_KEY" = None ->
   (forall prompt st,
       gen_with_openai w prompt st
       = (Raise (RuntimeError "OPENAI_API_KEY not set"), st)) /\
   (USE_OPENAI (environ w) = true ->
  run str_of w
  = (Raise (RuntimeError "OPENAI_API_KEY not set"),
     [EvPrint ("Generating post for niche: "
               ++ getenv (environ w) "NICHE" "budget camping gear for beginners")])
  /\ existsb is_network (snd (run str_of w)) = false
  /\ existsb is_file (snd (run str_of w)) = false))
  /\
  (environ w !! "HF_INFERENCE_API_TOKEN" = None ->
   (forall prompt st,
       gen_with_hf str_of w prompt st
       = (Raise (RuntimeError "HF_INFERENCE_API_TOKEN not set"), st)) /\
   (USE_OPENAI (environ w) = false ->
  run str_of w
  = (Raise (RuntimeError "HF_INFERENCE_API_TOKEN not set"),
     [EvPrint ("Generating post for niche: "
               ++ getenv (environ w) "NICHE" "budget camping gear for beginners")])
  /\ existsb is_network (snd (run str_of w)) = false
  /\ existsb is_file (snd (run str_of w)) = false)).
Proof.
  split; intros Hkey.
  - assert (G : forall prompt st,
               gen_with_openai w prompt st
               = (Raise (RuntimeError "OPENAI_API_KEY not set"), st)).
    { intros prompt st. unfold gen_with_openai. rewrite Hkey. reflexivity. }
    split; [exact G|]. intros Hflag.
  unfold run. rewrite main_unfold, Hflag. unfold main_with, bind, print, emit.
  rewrite G. repeat split.
  - assert (G : forall prompt st,
               gen_with_hf str_of w prompt st
               = (Raise (RuntimeError "HF_INFERENCE_API_TOKEN not set"), st)).
    { intros prompt st. unfold gen_with_hf. rewrite Hkey. reflexivity. }
    split; [exact G|]. intros Hflag.
  unfold run. rewrite main_unfold, Hflag. unfold main_with, bind, print, emit.
  rewrite G. repeat split.
Qed.

Lemma missing_credential_aborts_witness :
  run sample_str bare_world
  = (Raise (RuntimeError "OPENAI_API_KEY not set"),
     [EvPrint "Generating post for niche: budget camping gear for beginners"])
  /\
  run sample_str bare_hf_world
  = (Raise (RuntimeError "HF_INFERENCE_API_TOKEN not set"),
     [EvPrint "Generating post for niche: budget camping gear for beginners"]).
Proof.
  split.
  - apply (proj2 (proj1 (missing_credential_aborts sample_str bare_world)
                         eq_refl) eq_refl).
  - apply (proj2 (proj2 (missing_credential_aborts sample_str bare_hf_world)
                         eq_refl) eq_refl).
Defined.

(** ** The choice of the generator *)

Lemma caseless_lower (a b : string) :
  caseless_eqb a b = true <-> lower a = lower b.
Proof.
  unfold lower. revert b; induction a as [|x a IH]; intros [|y b];
    cbn [caseless_eqb map_chars]; try (split; congruence).
  rewrite andb_true_iff, Ascii.eqb_eq, IH. split.
  - intros [-> ->]; reflexivity.
  - intros [=]; auto.
Qed.

Lemma lower_is (v t : string) :
  lower t = t -> (String.eqb (lower v) t = true <-> caseless_eqb v t = true).
Proof. intros Ht. rewrite String.eqb_eq, caseless_lower, Ht. reflexivity. Qed.

Lemma USE_OPENAI_flag (env : gmap string string) :
  USE_OPENAI env = true <-> flag_selects_openai (env !! "USE_OPENAI").
Proof.
  unfold USE_OPENAI, getenv, flag_selects_openai.
  destruct (env !! "USE_OPENAI") as [v|].
  - cbn [existsb]. rewrite orb_false_r, !orb_true_iff.
    rewrite !lower_is by reflexivity. reflexivity.
  - split; [auto | reflexivity].
Qed.

(** C7.  The flag selects Provider A exactly when it is unset or is one of
    [1], [true], [yes] without regard to case; a run is then the driver
    with Provider A's generator alone and sends nothing to Provider B;
    otherwise it is the driver with Provider B's generator alone and sends
    nothing to Provider A. *)
Theorem driver_runs_one_generator (str_of : pyval -> string) (w : world) :
  (USE_OPENAI (environ w) = true
   <-> flag_selects_openai (environ w !! "USE_OPENAI")) /\
  (USE_OPENAI (environ w) = true ->
   main str_of w = main_with w gen_with_openai /\
   Forall (fun e => is_hf e = false) (snd (run str_of w))) /\
  (USE_OPENAI (environ w) = false ->
   main str_of w = main_with w (gen_with_hf str_of) /\
   Forall (fun e => is_openai e = false) (snd (run str_of w))).
Proof.
  split; [apply USE_OPENAI_flag|].
  split; intros Hflag; (split; [rewrite main_unfold, Hflag; reflexivity|]);
    unfold run; cbn [snd]; apply emits_run with (Q := fun _ => True);
    rewrite main_unfold, Hflag; apply main_with_emits; try reflexivity.
  - intros prompt. apply gen_with_openai_emits; reflexivity.
  - intros prompt. apply gen_with_hf_emits; reflexivity.
Qed.

Lemma driver_runs_one_generator_witness :
  Forall (fun e => is_hf e = false) (snd (run sample_str openai_world)) /\
  Forall (fun e => is_openai e = false) (snd (run sample_str camp_world)).
Proof.
  split.
  - apply (proj1 (proj2 (driver_runs_one_generator sample_str openai_world))).
    reflexivity.
  - apply (proj2 (proj2 (driver_runs_one_generator sample_str camp_world))).
    reflexivity.
Defined.

(** ** Provider B: the decoded body *)

Lemma dict_has_get (key : string) (fields : list (string * pyval)) :
  dict_has key fields = true <-> exists v, dict_get key fields = Some v.
Proof.
  induction fields as [|[k v] rest IH]; cbn [dict_has dict_get].
  - split; [discriminate | intros [? [=]]].
  - destruct (String.eqb key k); cbn [orb]; [split; eauto | exact IH].
Qed.

Lemma dict_get_none (key : string) (fields : list (string * pyval)) :
  dict_get key fields = None -> dict_has key fields = false.
Proof.
  intros H. destruct (dict_has key fields) eqn:E; [|reflexivity].
  apply dict_has_get in E as [v E]. congruence.
Qed.

(** The chain on the shapes it was written for. *)
Lemma hf_text_chain (str_of : pyval -> string) :
  (forall fields msg,
      dict_get "error" fields = Some (PStr msg) ->
      hf_text str_of (PDict fields) = Raise (RuntimeError ("HF error: " ++ msg))) /\
  (forall fields,
      dict_has "error" fields = true ->
      exists e, hf_text str_of (PDict fields) = Raise e) /\
  (forall fields,
      dict_has "error" fields = false ->
      hf_text str_of (PDict fields) = Ok (PStr (str_of (PDict fields)))) /\
  (forall first rest v,
      dict_get "generated_text" first = Some v ->
      hf_text str_of (PList (PDict first :: rest)) = Ok v) /\
  (forall first rest,
      dict_get "generated_text" first = None ->
      hf_text str_of (PList (PDict first :: rest))
      = Ok (PStr (str_of (PDict first)))) /\
  (forall s rest,
      contains "generated_text" s = false ->
      hf_text str_of (PList (PStr s :: rest))
      = Ok (PStr (str_of (PList (PStr s :: rest))))) /\
  (forall data,
      is_dict data = false -> is_list data = false ->
      hf_text str_of data = Ok (PStr (str_of data))).
Proof.
  repeat split.
  - intros fields msg H. unfold hf_text.
    cbn [is_dict py_in rbind py_getitem].
    assert (E : dict_has "error" fields = true) by (apply dict_has_get; eauto).
    rewrite E, H. reflexivity.
  - intros fields H. unfold hf_text. cbn [is_dict py_in rbind py_getitem].
    rewrite H. apply dict_has_get in H as [v ->].
    destruct v; cbn; eauto.
  - intros fields H. unfold hf_text. cbn [is_dict is_list py_in rbind].
    rewrite H. reflexivity.
  - intros first rest v H. unfold hf_text.
    cbn [is_dict is_list py_in rbind item0 first_item py_getitem].
    assert (E : dict_has "generated_text" first = true) by (apply dict_has_get; eauto).
    rewrite E, H. reflexivity.
  - intros first rest H. unfold hf_text.
    cbn [is_dict is_list py_in rbind item0 first_item py_getitem py_get].
    rewrite (dict_get_none _ _ H), H. reflexivity.
  - intros s rest H. unfold hf_text.
    cbn [is_dict is_list py_in rbind item0 first_item].
    rewrite H. reflexivity.
  - intros data Hd Hl. unfold hf_text. rewrite Hd, Hl. reflexivity.
Qed.

(** C1 fails on the code: for the body [[]] the chain does not reach its
    last case; [data[0]] raises, and the run ends with that error. *)
Theorem hf_empty_list_raises :
  (forall str_of, hf_text str_of (PList []) = Raise IndexError) /\
  run sample_str (sample_world hf_env [] EmptyString (PList []))
  = (Raise IndexError,
     [EvPrint "Generating post for niche: budget camping gear for beginners";
      EvHttpPost
        {| url := "https://api-inference.huggingface.co/models/gpt2";
           headers := [("Authorization", "Bearer hf_token")];
           json := PDict
                     [("inputs",
                       PStr (build_prompt "budget camping gear for beginners"));
                      ("options", PDict [("wait_for_model", PBool true)]);
                      ("parameters", PDict [("max_new_tokens", PInt 400)])];
           timeout := 60 |}]).
Proof. split; [intros str_of|]; vm_compute; reflexivity. Qed.

(** The same lines raise on a list whose first item is neither a dict nor
    a string, and on one whose first item is a string holding the key. *)
Lemma hf_text_other_raises (str_of : pyval -> string) :
  hf_text str_of (PList [PInt 1]) = Raise TypeError /\
  hf_text str_of (PList [PNone]) = Raise TypeError /\
  hf_text str_of (PList [PStr "no generated_text"]) = Raise TypeError.
Proof. repeat split. Qed.

(** ** Provider A: the model and the request *)

Lemma pick_model_mini (data : list pyval) :
  pick_model data = "gpt-4o-mini" <-> In (PStr "gpt-4o-mini") data.
Proof.
  unfold pick_model. destruct (existsb _ data) eqn:E.
  - split; [intros _ | reflexivity].
    apply existsb_exists in E as (v & Hin & Hv).
    destruct v; try discriminate. apply String.eqb_eq in Hv. subst; exact Hin.
  - split; [discriminate|]. intros Hin.
    assert (existsb (str_eq "gpt-4o-mini") data = true); [|congruence].
    apply existsb_exists. exists (PStr "gpt-4o-mini"). split; [exact Hin|].
    apply String.eqb_refl.
Qed.

(** With its key, a listing and an answer, the generator lists the models,
    sends one chat request (one user message, temperature 0.7, at most 800
    tokens) and returns the stripped text of the first choice. *)
Lemma gen_with_openai_request (w : world) (prompt key : string) (st : state)
      (data : list pyval) (content : string) (others : list (option string)) :
  let req := {| model := pick_model data;
                messages := [("user", prompt)];
                temperature := 7 # 10;
                max_tokens := 800 |} in
  environ w !! "OPENAI_API_KEY" = Some key ->
  key <> EmptyString ->
  model_list w = Ok data ->
  chat_create w req = Ok (Some content :: others) ->
  gen_with_openai w prompt st
  = (Ok (PStr (strip content)),
     {| trace := trace st ++ [EvModelList; EvChatCreate req];
        clock := clock st |}).
Proof.
  intros req Hkey Hne Hlist Hchat. unfold gen_with_openai.
  rewrite Hkey. destruct key as [|c key]; [congruence|]. cbn [truthy negb].
  unfold list_models, create_chat, bind, emit, lift. cbn [trace clock].
  rewrite Hlist. fold req. rewrite Hchat. cbn.
  rewrite <- List.app_assoc. reflexivity.
Qed.

(** C6 fails on the code: the listing holds model objects, the test
    compares them with the identifier itself, and so the smaller model is
    not selected although it is listed. *)
Theorem listed_mini_is_not_selected :
  (forall data,
      Forall (fun m => is_dict m = true) data -> pick_model data = "gpt-4o") /\
  run sample_str openai_world
  = (Ok tt,
     [EvPrint "Generating post for niche: budget camping gear for beginners";
      EvModelList;
      EvChatCreate
        {| model := "gpt-4o";
           messages := [("user", build_prompt "budget camping gear for beginners")];
           temperature := 7 # 10;
           max_tokens := 800 |};
      EvMkdir "posts";
      EvWrite "posts/2026-11-03-hello.md"
        (with_front "2026-11-03" "# Hello");
      EvPrint "Saved: posts/2026-11-03-hello.md"]).
Proof.
  split.
  - intros data H. unfold pick_model.
    assert (E : existsb (str_eq "gpt-4o-mini") data = false); [|rewrite E; reflexivity].
    induction H as [|m data Hm _ IH]; [reflexivity|].
    cbn [existsb]. rewrite IH. destruct m; try discriminate. reflexivity.
  - vm_compute. reflexivity.
Qed.

Lemma listed_mini_is_not_selected_witness :
  pick_model catalog_with_mini = "gpt-4o".
Proof.
  apply (proj1 listed_mini_is_not_selected catalog_with_mini).
  repeat constructor.
Defined.

(** * Further properties of the script *)

(** ** More on strings *)

Lemma all_chars_impl (p q : ascii -> bool) (s : string) :
  (forall c, p c = true -> q c = true) ->
  all_chars p s = true -> all_chars q s = true.
Proof.
  intros Hpq. induction s as [|c r IH]; cbn [all_chars]; [reflexivity|].
  intros H; apply andb_prop in H as [Hc Hr]. rewrite (Hpq c Hc), (IH Hr). reflexivity.
Qed.

Lemma lstrip_by_id (p : ascii -> bool) (s : string) :
  match s with
  | EmptyString => True
  | String c _ => p c = false
  end -> lstrip_by p s = s.
Proof. destruct s as [|c r]; [reflexivity|]. apply lstrip_by_head. Qed.

Lemma rstrip_by_cons (p : ascii -> bool) (c : ascii) (r : string) :
  rstrip_by p (String c r)
  = match rstrip_by p r with
    | EmptyString => if p c then EmptyString else String c EmptyString
    | String d r' => String c (String d r')
    end.
Proof. reflexivity. Qed.

Lemma rstrip_by_id (p : ascii -> bool) (s : string) :
  match last_char s with
  | None => True
  | Some c => p c = false
  end -> rstrip_by p s = s.
Proof.
  induction s as [|c r IH]; [reflexivity|].
  destruct r as [|d r'].
  - cbn. intros ->. reflexivity.
  - intros H. change (last_char (String c (String d r')))
      with (last_char (String d r')) in H.
    rewrite rstrip_by_cons, (IH H). reflexivity.
Qed.

Lemma strip_by_idem (p : ascii -> bool) (s : string) :
  strip_by p (strip_by p s) = strip_by p s.
Proof.
  destruct (strip_by_no_edge p s) as [Hfirst Hlast].
  unfold strip_by at 1. rewrite (lstrip_by_id p _ Hfirst).
  apply rstrip_by_id, Hlast.
Qed.

Lemma lstrip_by_all (p : ascii -> bool) (s : string) :
  all_chars p s = true -> lstrip_by p s = EmptyString.
Proof.
  induction s as [|c r IH]; cbn [all_chars lstrip_by]; [reflexivity|].
  intros H; apply andb_prop in H as [-> Hr]. exact (IH Hr).
Qed.

Lemma rstrip_by_empty (p : ascii -> bool) (s : string) :
  rstrip_by p s = EmptyString -> all_chars p s = true.
Proof.
  induction s as [|c r IH]; cbn [all_chars rstrip_by]; [reflexivity|].
  destruct (rstrip_by p r); [|discriminate].
  destruct (p c); [|discriminate]. intros _. exact (IH eq_refl).
Qed.

Lemma strip_by_empty (p : ascii -> bool) (s : string) :
  strip_by p s = EmptyString <-> all_chars p s = true.
Proof.
  unfold strip_by. split.
  - intros H. apply rstrip_by_empty in H.
    pose proof (lstrip_by_first p s) as F.
    assert (E : lstrip_by p s = EmptyString).
    { destruct (lstrip_by p s) as [|c r]; [reflexivity|].
      cbn [all_chars] in H. apply andb_prop in H as [Hc _]. congruence. }
    clear H F. induction s as [|c r IH]; [reflexivity|].
    cbn [lstrip_by all_chars] in *. destruct (p c); [exact (IH E) | discriminate].
  - intros H. rewrite (lstrip_by_all p s H). reflexivity.
Qed.

Lemma take_all (n : nat) (s : string) :
  String.length s <= n -> take n s = s.
Proof.
  revert s; induction n as [|n IH]; intros [|c r]; cbn [String.length take];
    try reflexivity; try lia.
  intros H. rewrite IH by lia. reflexivity.
Qed.

Lemma take_map_chars (f : ascii -> ascii) (n : nat) (s : string) :
  take n (map_chars f s) = map_chars f (take n s).
Proof.
  revert s; induction n as [|n IH]; intros [|c r]; cbn [take map_chars];
    try reflexivity.
  rewrite IH. reflexivity.
Qed.

Lemma map_chars_fixed (f : ascii -> ascii) (s : string) :
  all_chars (fun c => Ascii.eqb (f c) c) s = true -> map_chars f s = s.
Proof.
  induction s as [|c r IH]; cbn [all_chars map_chars]; [reflexivity|].
  intros H; apply andb_prop in H as [Hc Hr].
  apply Ascii.eqb_eq in Hc. rewrite Hc, (IH Hr). reflexivity.
Qed.

Lemma all_chars_map (p : ascii -> bool) (f : ascii -> ascii) (s : string) :
  all_chars p (map_chars f s) = all_chars (fun c => p (f c)) s.
Proof.
  induction s as [|c r IH]; cbn [all_chars map_chars]; [reflexivity|].
  rewrite IH. reflexivity.
Qed.

Lemma all_chars_ext (p q : ascii -> bool) (s : string) :
  (forall c, p c = q c) -> all_chars p s = all_chars q s.
Proof.
  intros E. induction s as [|c r IH]; cbn [all_chars]; [reflexivity|].
  rewrite E, IH. reflexivity.
Qed.

(** ** More on the slug *)

Lemma all_chars_safe (title : string) : all_chars slug_char (safe title) = true.
Proof.
  rewrite safe_is_slug_spec. unfold slug_spec, strip_by.
  apply all_chars_rstrip_by, all_chars_lstrip_by, all_chars_take.
  apply all_chars_hyphenate_lower.
Qed.

Lemma length_slug_spec (title : string) : String.length (slug_spec title) <= 60.
Proof.
  unfold slug_spec, strip_by.
  pose proof (length_rstrip_by (Ascii.eqb "-"%char)
                (lstrip_by (Ascii.eqb "-"%char)
                   (take 60 (map_chars hyphenate (lower title))))) as Hr.
  pose proof (length_lstrip_by (Ascii.eqb "-"%char)
                (take 60 (map_chars hyphenate (lower title)))) as Hl.
  pose proof (length_take 60 (map_chars hyphenate (lower title))) as Ht.
  lia.
Qed.

Lemma slug_char_plain (c : ascii) :
  slug_char c = true -> plain_name_char c = true.
Proof. destruct c as [[] [] [] [] [] [] [] []]; vm_compute; congruence. Qed.

Lemma slug_char_lower (c : ascii) :
  slug_char c = true -> Ascii.eqb (lower_char c) c = true.
Proof. destruct c as [[] [] [] [] [] [] [] []]; vm_compute; congruence. Qed.

Lemma slug_char_hyphenate (c : ascii) :
  slug_char c = true -> Ascii.eqb (hyphenate c) c = true.
Proof. destruct c as [[] [] [] [] [] [] [] []]; vm_compute; congruence. Qed.

Lemma hyphen_of_lower (c : ascii) :
  Ascii.eqb "-"%char (hyphenate (lower_char c)) = negb (isalnum c).
Proof. destruct c as [[] [] [] [] [] [] [] []]; vm_compute; reflexivity. Qed.

(** X1.  Whatever the title, the name part of the file name has no path
    separator, no dot and no whitespace or control character: the file
    lands in the output directory itself. *)
Theorem slug_is_a_plain_name (title : string) :
  all_chars plain_name_char (safe title) = true.
Proof.
  apply all_chars_impl with (p := slug_char); [apply slug_char_plain|].
  apply all_chars_safe.
Qed.

(** X2.  The slug of a slug is the slug itself. *)
Theorem slug_is_idempotent (title : string) : safe (safe title) = safe title.
Proof.
  rewrite !safe_is_slug_spec.
  pose proof (all_chars_safe title) as A. rewrite safe_is_slug_spec in A.
  pose proof (length_slug_spec title) as L.
  set (u := slug_spec title) in *.
  unfold slug_spec at 1. unfold lower.
  rewrite (map_chars_fixed lower_char u)
    by (apply all_chars_impl with (p := slug_char); [apply slug_char_lower | exact A]).
  rewrite (map_chars_fixed hyphenate u)
    by (apply all_chars_impl with (p := slug_char); [apply slug_char_hyphenate | exact A]).
  rewrite (take_all 60 u L). unfold u, slug_spec. apply strip_by_idem.
Qed.

(** X4.  The slug is empty exactly when the first 60 characters of the
    title hold no alphanumeric character. *)
Theorem slug_is_empty_iff (title : string) :
  safe title = EmptyString
  <-> all_chars (fun c => negb (isalnum c)) (take 60 title) = true.
Proof.
  rewrite safe_is_slug_spec. unfold slug_spec. rewrite strip_by_empty.
  unfold lower. rewrite take_map_chars, all_chars_map, take_map_chars, all_chars_map.
  rewrite (all_chars_ext _ (fun c => negb (isalnum c)) _ hyphen_of_lower).
  reflexivity.
Qed.

(** ** More on the title *)

Lemma splitlines_lines_bounded (n : nat) (s : string) :
  String.length s <= n ->
  Forall (fun l => all_chars (fun c => negb (is_linebreak c)) l = true)
         (splitlines s).
Proof.
  revert s; induction n as [|n IH]; intros [|c r] Hlen;
    cbn [String.length] in Hlen; try (constructor; fail); try lia.
  cbn [splitlines]. destruct (is_linebreak c) eqn:Ec.
  - destruct r as [|d r']; [repeat constructor|].
    cbn [String.length] in Hlen.
    destruct (_ && _); (constructor; [reflexivity | apply IH; cbn [String.length]; lia]).
  - assert (Hr : String.length r <= n) by lia. specialize (IH r Hr).
    destruct (splitlines r) as [|l ls].
    + repeat constructor. cbn [all_chars]. rewrite Ec. reflexivity.
    + inversion IH as [|? ? Hl Hls]; subst. constructor; [|exact Hls].
      cbn [all_chars]. rewrite Ec, Hl. reflexivity.
Qed.

Lemma splitlines_lines (s : string) :
  Forall (fun l => all_chars (fun c => negb (is_linebreak c)) l = true)
         (splitlines s).
Proof. apply (splitlines_lines_bounded (String.length s)). lia. Qed.

Lemma first_heading_in (lines : list string) (title : string) :
  first_heading lines = Some title ->
  exists line, In line lines /\ title = heading_title line.
Proof.
  induction lines as [|l lines IH]; cbn [first_heading]; [discriminate|].
  destruct (startswith "#" (strip l)).
  - intros [= <-]. exists l. split; [left; reflexivity | reflexivity].
  - intros H. destruct (IH H) as (line & Hin & ->).
    exists line. split; [right; exact Hin | reflexivity].
Qed.

Lemma all_chars_strip_by (p q : ascii -> bool) (s : string) :
  all_chars q s = true -> all_chars q (strip_by p s) = true.
Proof. intros H. unfold strip_by. apply all_chars_rstrip_by, all_chars_lstrip_by, H. Qed.

Lemma title_line_is_one_line (text : string) :
  all_chars (fun c => negb (is_linebreak c)) (parse_title_from_output text) = true.
Proof.
  unfold parse_title_from_output.
  destruct (first_heading (splitlines text)) as [title|] eqn:E; [|reflexivity].
  apply first_heading_in in E as (line & Hin & ->).
  unfold heading_title, strip, lstrip_chars.
  apply all_chars_strip_by, all_chars_lstrip_by, all_chars_strip_by.
  pose proof (splitlines_lines text) as F.
  rewrite List.Forall_forall in F. exact (F line Hin).
Qed.

(** X5.  The extracted title is one line and has no whitespace around it:
    it holds no line boundary, and stripping it changes nothing. *)
Theorem title_is_one_stripped_line (text : string) :
  all_chars (fun c => negb (is_linebreak c)) (parse_title_from_output text) = true /\
  strip (parse_title_from_output text) = parse_title_from_output text.
Proof.
  split; [apply title_line_is_one_line|].
  unfold parse_title_from_output.
  destruct (first_heading (splitlines text)) as [title|] eqn:E; [|reflexivity].
  apply first_heading_in in E as (line & Hin & ->).
  unfold heading_title, strip. apply strip_by_idem.
Qed.

(** X6.  A heading line made of [#] and spaces only gives the empty title,
    not the placeholder. *)
Theorem bare_heading_gives_empty_title (text : string)
        (pre : list string) (line : string) (post : list string) :
  splitlines text = (pre ++ line :: post)%list ->
  Forall (fun l => is_heading l = false) pre ->
  is_heading line = true ->
  all_chars (fun c => char_in c "# ") line = true ->
  parse_title_from_output text = EmptyString.
Proof.
  intros E Hpre Hline Hall. unfold parse_title_from_output.
  rewrite E, (first_heading_found pre line post Hpre Hline).
  unfold heading_title, lstrip_chars.
  rewrite (lstrip_by_all (fun c => char_in c "# ") (strip line)); [reflexivity|].
  unfold strip. apply all_chars_strip_by, Hall.
Qed.

Lemma bare_heading_gives_empty_title_witness :
  parse_title_from_output ("intro" ++ LF ++ "## #" ++ LF ++ "# Real title")
  = EmptyString.
Proof.
  apply (bare_heading_gives_empty_title _ ["intro"] "## #" ["# Real title"]).
  - reflexivity.
  - repeat constructor.
  - reflexivity.
  - reflexivity.
Defined.

(** ** More on the frontmatter step *)

Lemma with_front_starts (date out : string) :
  startswith "---" (lstrip (with_front date out)) = true.
Proof.
  destruct (with_front_cases date out) as [[H ->]|(_ & _ & H)]; [exact H|].
  rewrite (startswith_lstrip _ H). exact H.
Qed.

(** X7.  The frontmatter step is idempotent: a Post passes it unchanged,
    whatever the date of the second pass. *)
Theorem with_front_is_idempotent (date date' out : string) :
  with_front date' (with_front date out) = with_front date out.
Proof.
  pose proof (with_front_starts date out) as H.
  unfold with_front at 1. rewrite H. reflexivity.
Qed.

Lemma all_chars_app (p : ascii -> bool) (a b : string) :
  all_chars p (a ++ b) = all_chars p a && all_chars p b.
Proof.
  induction a as [|c a IH]; [reflexivity|].
  rewrite append_cons. cbn [all_chars]. rewrite IH, andb_assoc. reflexivity.
Qed.

Lemma splitlines_line (line rest : string) :
  all_chars (fun c => negb (is_linebreak c)) line = true ->
  splitlines (line ++ LF ++ rest) = line :: splitlines rest.
Proof.
  induction line as [|c line IH]; intros H.
  - rewrite append_nil. unfold LF. rewrite append_cons, append_nil.
    destruct rest; reflexivity.
  - cbn [all_chars] in H. apply andb_prop in H as [Hc Hl].
    rewrite append_cons. cbn [splitlines].
    apply negb_true_iff in Hc. rewrite Hc, (IH Hl). reflexivity.
Qed.

Lemma strip_keeps_first (c : ascii) (r : string) :
  isspace c = false -> exists r', strip (String c r) = String c r'.
Proof.
  intros H. unfold strip, strip_by. rewrite (lstrip_by_head isspace c r H).
  apply rstrip_by_first, H.
Qed.

Lemma not_heading_by_first (c : ascii) (r : string) :
  isspace c = false -> Ascii.eqb "#"%char c = false ->
  is_heading (String c r) = false.
Proof.
  intros Hs Hc. unfold is_heading.
  destruct (strip_keeps_first c r Hs) as [r' ->].
  rewrite startswith_char. exact Hc.
Qed.

Lemma front_lines (title date out : string) :
  front title date ++ out
  = "---" ++ LF ++ ("title: " ++ QUOTE ++ title ++ QUOTE) ++ LF
    ++ ("date: " ++ date) ++ LF ++ "---" ++ LF ++ EmptyString ++ LF ++ out.
Proof. unfold front. rewrite !app_assoc_str. reflexivity. Qed.

(** X8.  The frontmatter step does not change the title: the title
    extracted from the Post is the one extracted from the generated text,
    provided the date is one line. *)
Theorem with_front_keeps_title (date out : string) :
  all_chars (fun c => negb (is_linebreak c)) date = true ->
  parse_title_from_output (with_front date out) = parse_title_from_output out.
Proof.
  intros Hdate.
  destruct (with_front_cases date out) as [[_ ->]|(_ & -> & _)]; [reflexivity|].
  pose proof (title_line_is_one_line out) as Htitle.
  set (title := parse_title_from_output out) in *.
  unfold parse_title_from_output at 1.
  rewrite front_lines.
  rewrite splitlines_line by reflexivity.
  rewrite splitlines_line
    by (rewrite !all_chars_app, Htitle; reflexivity).
  rewrite splitlines_line by (rewrite all_chars_app, Hdate; reflexivity).
  rewrite splitlines_line by reflexivity.
  rewrite splitlines_line by reflexivity.
  cbn [first_heading].
  change (startswith "#" (strip "---")) with false. cbv iota.
  change ("title: " ++ QUOTE ++ title ++ QUOTE)
    with (String "t"%char ("itle: " ++ QUOTE ++ title ++ QUOTE)).
  fold (is_heading (String "t"%char ("itle: " ++ QUOTE ++ title ++ QUOTE))).
  rewrite not_heading_by_first by reflexivity.
  change ("date: " ++ date) with (String "d"%char ("ate: " ++ date)).
  fold (is_heading (String "d"%char ("ate: " ++ date))).
  rewrite not_heading_by_first by reflexivity.
  change (startswith "#" (strip EmptyString)) with false. cbv iota.
  reflexivity.
Qed.

Lemma with_front_keeps_title_witness :
  parse_title_from_output (with_front "2026-11-03" camp_text)
  = parse_title_from_output camp_text.
Proof. apply with_front_keeps_title. reflexivity. Defined.

(** ** More on the generators *)

(** X9.  A credential that is set but empty counts as missing: the
    generator raises the same error and does nothing else. *)
Theorem empty_credential_aborts (str_of : pyval -> string) (w : world) :
  (environ w !! "OPENAI_API_KEY" = Some EmptyString ->
   forall prompt st,
     gen_with_openai w prompt st
     = (Raise (RuntimeError "OPENAI_API_KEY not set"), st)) /\
  (environ w !! "HF_INFERENCE_API_TOKEN" = Some EmptyString ->
   forall prompt st,
     gen_with_hf str_of w prompt st
     = (Raise (RuntimeError "HF_INFERENCE_API_TOKEN not set"), st)).
Proof.
  split; intros H prompt st.
  - unfold gen_with_openai. rewrite H. reflexivity.
  - unfold gen_with_hf. rewrite H. reflexivity.
Qed.

Lemma empty_credential_aborts_witness :
  gen_with_openai empty_keys_world "p" init
  = (Raise (RuntimeError "OPENAI_API_KEY not set"), init) /\
  gen_with_hf sample_str empty_keys_world "p" init
  = (Raise (RuntimeError "HF_INFERENCE_API_TOKEN not set"), init).
Proof.
  split.
  - apply (proj1 (empty_credential_aborts sample_str empty_keys_world)).
    reflexivity.
  - apply (proj2 (empty_credential_aborts sample_str empty_keys_world)).
    reflexivity.
Defined.

Lemma gen_with_hf_unfold (str_of : pyval -> string) (w : world)
      (token prompt : string) (st : state) :
  environ w !! "HF_INFERENCE_API_TOKEN" = Some token ->
  token <> EmptyString ->
  gen_with_hf str_of w prompt st
  = let st' := {| trace := (trace st ++ [EvHttpPost (hf_request token prompt)])%list;
                  clock := clock st |} in
    match http_post w (hf_request token prompt) with
    | Raise e => (Raise e, st')
    | Ok resp =>
        if is_error_status (status_code resp)
        then (Raise (HTTPError (status_code resp)), st')
        else match body resp with
             | None => (Raise JSONDecodeError, st')
             | Some data => (hf_text str_of data, st')
             end
    end.
Proof.
  intros Htoken Hne. unfold gen_with_hf. rewrite Htoken.
  destruct token as [|c token]; [congruence|].
  unfold post, bind, emit, lift, raise, ret, is_error_status.
  fold (hf_request (String c token) prompt). cbn [trace clock].
  destruct (http_post w (hf_request (String c token) prompt)) as [resp|e];
    [|reflexivity].
  destruct (_ && _); [reflexivity|].
  destruct (body resp); reflexivity.
Qed.

(** X10.  With a token, Provider B's generator sends exactly one request,
    whatever comes back: the POST to the fixed model with the bearer
    token, the prompt, [wait_for_model], 400 new tokens and a timeout of
    60 seconds. *)
Theorem gen_with_hf_sends_one_request (str_of : pyval -> string) (w : world)
        (token prompt : string) (st : state) :
  environ w !! "HF_INFERENCE_API_TOKEN" = Some token ->
  token <> EmptyString ->
  trace (snd (gen_with_hf str_of w prompt st))
  = (trace st ++
     [EvHttpPost
        {| url := "https://api-inference.huggingface.co/models/gpt2";
           headers := [("Authorization", ("Bearer " ++ token)%string)];
           json := PDict [("inputs", PStr prompt);
                          ("options", PDict [("wait_for_model", PBool true)]);
                          ("parameters", PDict [("max_new_tokens", PInt 400)])];
           timeout := 60 |}])%list.
Proof.
  intros Htoken Hne. rewrite (gen_with_hf_unfold str_of w token prompt st Htoken Hne).
  cbv zeta. destruct (http_post w _) as [resp|e]; [|reflexivity].
  destruct (is_error_status _); [reflexivity|].
  destruct (body resp); reflexivity.
Qed.

Lemma gen_with_hf_sends_one_request_witness :
  trace (snd (gen_with_hf sample_str busy_world "p" init))
  = [EvHttpPost (hf_request "hf_token" "p")].
Proof.
  apply (gen_with_hf_sends_one_request sample_str busy_world "hf_token" "p" init).
  - reflexivity.
  - discriminate.
Defined.

(** X11.  Provider B's generator looks at the body only after the status:
    a transport error is passed on, a status from 400 to 599 raises
    [HTTPError] whatever the body says, and a body that is not JSON raises
    the decoding error. *)
Theorem gen_with_hf_failures (str_of : pyval -> string) (w : world)
        (token prompt : string) (st : state) :
  environ w !! "HF_INFERENCE_API_TOKEN" = Some token ->
  token <> EmptyString ->
  (forall e,
      http_post w (hf_request token prompt) = Raise e ->
      fst (gen_with_hf str_of w prompt st) = Raise e) /\
  (forall resp,
      http_post w (hf_request token prompt) = Ok resp ->
      is_error_status (status_code resp) = true ->
      fst (gen_with_hf str_of w prompt st) = Raise (HTTPError (status_code resp))) /\
  (forall resp,
      http_post w (hf_request token prompt) = Ok resp ->
      is_error_status (status_code resp) = false ->
      body resp = None ->
      fst (gen_with_hf str_of w prompt st) = Raise JSONDecodeError) /\
  (forall resp data,
      http_post w (hf_request token prompt) = Ok resp ->
      is_error_status (status_code resp) = false ->
      body resp = Some data ->
      fst (gen_with_hf str_of w prompt st) = hf_text str_of data).
Proof.
  intros Htoken Hne. rewrite (gen_with_hf_unfold str_of w token prompt st Htoken Hne).
  cbv zeta. repeat split.
  - intros e ->. reflexivity.
  - intros resp -> ->. reflexivity.
  - intros resp -> -> ->. reflexivity.
  - intros resp data -> -> ->. reflexivity.
Qed.

Lemma gen_with_hf_failures_witness :
  fst (gen_with_hf sample_str busy_world "p" init) = Raise (HTTPError 503) /\
  fst (gen_with_hf sample_str html_world "p" init) = Raise JSONDecodeError.
Proof.
  split.
  - apply (proj1 (proj2 (gen_with_hf_failures sample_str busy_world
                           "hf_token" "p" init eq_refl ltac:(discriminate)))
             {| status_code := 503;
                body := Some (PDict [("error", PStr "Model gpt2 is currently loading")]) |});
      reflexivity.
  - apply (proj1 (proj2 (proj2 (gen_with_hf_failures sample_str html_world
                                   "hf_token" "p" init eq_refl ltac:(discriminate))))
             {| status_code := 200; body := None |});
      reflexivity.
Defined.

(** X12.  An [error] field that is not a string raises [TypeError] in
    place of the provider's message. *)
Theorem hf_error_must_be_text (str_of : pyval -> string)
        (fields : list (string * pyval)) (v : pyval) :
  dict_get "error" fields = Some v ->
  not_str v = true ->
  hf_text str_of (PDict fields) = Raise TypeError.
Proof.
  intros Hget Hv. unfold hf_text. cbn [is_dict py_in rbind py_getitem].
  assert (E : dict_has "error" fields = true) by (apply dict_has_get; eauto).
  rewrite E, Hget. destruct v; try reflexivity. discriminate.
Qed.

Lemma hf_error_must_be_text_witness :
  hf_text sample_str (PDict [("error", PDict [("code", PInt 503)])])
  = Raise TypeError.
Proof.
  apply (hf_error_must_be_text sample_str _ (PDict [("code", PInt 503)]));
    reflexivity.
Defined.

Lemma gen_with_openai_unfold (w : world) (key prompt : string) (st : state) :
  environ w !! "OPENAI_API_KEY" = Some key ->
  key <> EmptyString ->
  gen_with_openai w prompt st
  = let st1 := {| trace := (trace st ++ [EvModelList])%list; clock := clock st |} in
    match model_list w with
    | Raise e => (Raise e, st1)
    | Ok data =>
        let st2 := {| trace := ((trace st ++ [EvModelList])
                                ++ [EvChatCreate (openai_request data prompt)])%list;
                      clock := clock st |} in
        match chat_create w (openai_request data prompt) with
        | Raise e => (Raise e, st2)
        | Ok [] => (Raise IndexError, st2)
        | Ok (None :: _) => (Raise AttributeError, st2)
        | Ok (Some content :: _) => (Ok (PStr (strip content)), st2)
        end
    end.
Proof.
  intros Hkey Hne. unfold gen_with_openai. rewrite Hkey.
  destruct key as [|c key]; [congruence|]. cbn [truthy negb].
  unfold list_models, create_chat, bind, emit, lift, raise, ret.
  cbn [trace clock]. destruct (model_list w) as [data|e]; [|reflexivity].
  fold (openai_request data prompt).
  destruct (chat_create w (openai_request data prompt)) as [[|[content|] rest]|e];
    reflexivity.
Qed.

(** X13.  When the listing of the models fails, Provider A's generator
    passes the error on and sends no chat request. *)
Theorem listing_failure_stops_the_generator (w : world) (key prompt : string)
        (st : state) (e : exn) :
  environ w !! "OPENAI_API_KEY" = Some key ->
  key <> EmptyString ->
  model_list w = Raise e ->
  gen_with_openai w prompt st
  = (Raise e, {| trace := (trace st ++ [EvModelList])%list; clock := clock st |}).
Proof.
  intros Hkey Hne Hlist.
  rewrite (gen_with_openai_unfold w key prompt st Hkey Hne), Hlist. reflexivity.
Qed.

Lemma listing_failure_stops_the_generator_witness :
  gen_with_openai no_listing_world "p" init
  = (Raise OpenAIError, {| trace := [EvModelList]; clock := 0 |}).
Proof.
  apply (listing_failure_stops_the_generator no_listing_world "sk-key" "p" init).
  - reflexivity.
  - discriminate.
  - reflexivity.
Defined.

(** X14.  Provider A's generator needs a first choice with a text: an
    answer without choices raises [IndexError], a first choice without
    content raises [AttributeError], both after the two calls; the other
    choices are not looked at. *)
Theorem gen_with_openai_needs_first_choice (w : world) (key prompt : string)
        (st : state) (data : list pyval) :
  environ w !! "OPENAI_API_KEY" = Some key ->
  key <> EmptyString ->
  model_list w = Ok data ->
  let st2 := {| trace := (trace st ++ [EvModelList;
                                       EvChatCreate (openai_request data prompt)])%list;
                clock := clock st |} in
  (chat_create w (openai_request data prompt) = Ok [] ->
   gen_with_openai w prompt st = (Raise IndexError, st2)) /\
  (forall others,
      chat_create w (openai_request data prompt) = Ok (None :: others) ->
      gen_with_openai w prompt st = (Raise AttributeError, st2)) /\
  (forall content others,
      chat_create w (openai_request data prompt) = Ok (Some content :: others) ->
      gen_with_openai w prompt st = (Ok (PStr (strip content)), st2)).
Proof.
  intros Hkey Hne Hlist st2.
  rewrite (gen_with_openai_unfold w key prompt st Hkey Hne), Hlist.
  cbv zeta. unfold st2. rewrite <- List.app_assoc. cbn [app].
  repeat split.
  - intros ->. reflexivity.
  - intros others ->. reflexivity.
  - intros content others ->. reflexivity.
Qed.

Lemma gen_with_openai_needs_first_choice_witness :
  fst (gen_with_openai no_choice_world "p" init) = Raise IndexError /\
  fst (gen_with_openai null_content_world "p" init) = Raise AttributeError.
Proof.
  split.
  - rewrite (proj1 (gen_with_openai_needs_first_choice no_choice_world
                      "sk-key" "p" init catalog_with_mini
                      eq_refl ltac:(discriminate) eq_refl) eq_refl).
    reflexivity.
  - rewrite (proj1 (proj2 (gen_with_openai_needs_first_choice null_content_world
                             "sk-key" "p" init catalog_with_mini
                             eq_refl ltac:(discriminate) eq_refl)) [] eq_refl).
    reflexivity.
Defined.

(** ** More on the file and on whole runs *)

(** X15.  For a directory name without a slash (not empty and not [.]),
    [save_markdown] makes the directory first.  If that fails, nothing is
    written; if the write fails, no path is returned; otherwise the path
    returned is the one written: the directory, a slash, the date read
    now, a hyphen, the slug and [.md]. *)
Theorem save_markdown_outcomes (w : world) (title content out_dir : string)
        (st : state) :
  plain_dir out_dir = true ->
  let path := out_dir ++ "/" ++ today_iso w (clock st) ++ "-" ++ safe title ++ ".md" in
  (forall e,
      fs_mkdir w out_dir = Raise e ->
      save_markdown w title content out_dir st
      = (Raise e, {| trace := (trace st ++ [EvMkdir out_dir])%list;
                     clock := S (clock st) |})) /\
  (forall e,
      fs_mkdir w out_dir = Ok tt ->
      fs_write w path content = Raise e ->
      save_markdown w title content out_dir st
      = (Raise e, {| trace := (trace st ++ [EvMkdir out_dir; EvWrite path content])%list;
                     clock := S (clock st) |})) /\
  (fs_mkdir w out_dir = Ok tt ->
   fs_write w path content = Ok tt ->
   save_markdown w title content out_dir st
   = (Ok path, {| trace := (trace st ++ [EvMkdir out_dir; EvWrite path content])%list;
                  clock := S (clock st) |})).
Proof.
  intros _ path. unfold save_markdown, today, mkdir, write_file, bind, emit, lift, ret.
  cbn [trace clock]. fold path. repeat split.
  - intros e ->. reflexivity.
  - intros e -> ->. rewrite <- List.app_assoc. reflexivity.
  - intros -> ->. rewrite <- List.app_assoc. reflexivity.
Qed.

Lemma save_markdown_outcomes_witness :
  save_markdown readonly_world "T" "c" "posts" init
  = (Raise OSError, {| trace := [EvMkdir "posts"]; clock := 1 |}) /\
  save_markdown camp_world "Camp Smart" "c" "out" init
  = (Ok "out/2026-11-03-camp-smart.md",
     {| trace := [EvMkdir "out"; EvWrite "out/2026-11-03-camp-smart.md" "c"];
        clock := 1 |}).
Proof.
  split.
  - apply (proj1 (save_markdown_outcomes readonly_world "T" "c" "posts" init
                    eq_refl)).
    reflexivity.
  - apply (proj2 (proj2 (save_markdown_outcomes camp_world "Camp Smart" "c" "out" init
                           eq_refl)));
      reflexivity.
Defined.

(** X16.  With a file system that accepts everything, [main] turns a
    generated text into three events: the directory, the file and the
    closing print.  The file holds the text after the frontmatter step,
    dated by the first reading of the clock; the date in the file name is
    a second reading when the block was prepended, the first otherwise. *)
Theorem finish_on_success (w : world) (text : string) (st : state) :
  fs_mkdir w "posts" = Ok tt ->
  (forall path content, fs_write w path content = Ok tt) ->
  let prepended := negb (startswith "---" (lstrip text)) in
  let path := "posts/"
              ++ today_iso w (if prepended then S (clock st) else clock st)
              ++ "-" ++ safe (parse_title_from_output text) ++ ".md" in
  finish w (PStr text) st
  = (Ok tt,
     {| trace := (trace st ++
                  [EvMkdir "posts";
                   EvWrite path (with_front (today_iso w (clock st)) text);
                   EvPrint ("Saved: " ++ path)])%list;
        clock := if prepended then S (S (clock st)) else S (clock st) |}).
Proof.
  intros Hmkdir Hwrite prepended path.
  unfold finish, ensure_front, save_markdown, with_front, mkdir, write_file,
    print, today, emit, lift, bind, ret.
  cbn [as_str]. subst path. fold prepended.
  destruct prepended; cbn [trace clock]; rewrite Hmkdir, Hwrite; cbn [trace clock];
    rewrite <- !List.app_assoc; reflexivity.
Qed.

Lemma finish_on_success_witness :
  finish (world_of hf_env (Ok []) (Ok []) (Raise RequestException))
         (PStr camp_text) init
  = (Ok tt,
     {| trace := [EvMkdir "posts";
                  EvWrite "posts/2026-11-04-camp-smart.md"
                          (with_front "2026-11-03" camp_text);
                  EvPrint "Saved: posts/2026-11-04-camp-smart.md"];
        clock := 2 |}).
Proof.
  apply (finish_on_success (world_of hf_env (Ok []) (Ok []) (Raise RequestException))
           camp_text init).
  - reflexivity.
  - intros path content. reflexivity.
Defined.

Lemma finish_file_part (w : world) (out : pyval) (st : state) :
  exists files,
    trace (snd (finish w out st)) = (trace st ++ files)%list /\
    file_part (fst (finish w out st)) files.
Proof.
  unfold finish, ensure_front, save_markdown, mkdir, write_file,
    print, today, emit, lift, bind, ret.
  destruct out; cbn [as_str];
    try (exists []; rewrite List.app_nil_r; split; [reflexivity | constructor]).
  destruct (negb (startswith "---" (lstrip s))); cbn [trace clock snd fst];
    (destruct (fs_mkdir w "posts") as [[]|e]; cbn [trace clock snd fst];
     [|eexists; split; [reflexivity | constructor]]);
    match goal with
    | |- context [fs_write w ?p ?c] => destruct (fs_write w p c) as [[]|e]
    end; cbn [trace clock snd fst];
    rewrite <- !List.app_assoc; cbn [app];
    eexists; (split; [reflexivity|]).
  - apply (FpSaved (today_iso w (S (clock st))) (parse_title_from_output s)).
  - apply (FpWrite e (today_iso w (S (clock st))) (parse_title_from_output s)).
  - apply (FpSaved (today_iso w (clock st)) (parse_title_from_output s)).
  - apply (FpWrite e (today_iso w (clock st)) (parse_title_from_output s)).
Qed.

Lemma main_with_shape (w : world) (gen : world -> string -> M pyval) :
  (forall prompt, emits (fun e => is_network e = true) (fun _ => True) (gen w prompt)) ->
  exists net files,
    trace (snd (main_with w gen init))
    = (EvPrint ("Generating post for niche: "
                ++ getenv (environ w) "NICHE" "budget camping gear for beginners")
       :: net ++ files)%list /\
    Forall (fun e => is_network e = true) net /\
    file_part (fst (main_with w gen init)) files.
Proof.
  intros Hgen. unfold main_with, bind, print, emit. cbn [trace clock init app].
  set (greeting := "Generating post for niche: " ++ _).
  set (st1 := {| trace := [EvPrint greeting]; clock := 0 |}).
  destruct (Hgen (build_prompt (getenv (environ w) "NICHE"
                                  "budget camping gear for beginners")) st1)
    as (net & Htrace & Hnet & _).
  destruct (gen w _ st1) as [[out|e] st2]; cbn [fst snd] in *.
  - destruct (finish_file_part w out st2) as (files & Hfiles & Hpart).
    exists net, files. rewrite Hfiles, Htrace. cbn [trace st1 app].
    repeat split; [exact Hnet | exact Hpart].
  - exists net, []. rewrite Htrace, List.app_nil_r. cbn [trace st1 app].
    repeat split; [exact Hnet | constructor].
Qed.

(** X17.  Every run has the same shape: the opening print, then requests
    to the provider and nothing else, then the file part: nothing, or the
    directory, or the directory and one file [posts/<date>-<slug>.md], or
    these and the closing print with that path.  The run succeeds only in
    the last case, so a run writes at most one file and sends no request
    after touching the file system. *)
Theorem run_shape (str_of : pyval -> string) (w : world) :
  exists net files,
    snd (run str_of w)
    = (EvPrint ("Generating post for niche: "
                ++ getenv (environ w) "NICHE" "budget camping gear for beginners")
       :: net ++ files)%list /\
    Forall (fun e => is_network e = true) net /\
    file_part (fst (run str_of w)) files.
Proof.
  unfold run. cbn [fst snd]. rewrite main_unfold.
  destruct (USE_OPENAI (environ w)); apply main_with_shape; intros prompt.
  - apply gen_with_openai_emits; reflexivity.
  - apply gen_with_hf_emits; reflexivity.
Qed.

Lemma strip_has_no_lead (s : string) : lstrip (strip s) = strip s.
Proof.
  unfold lstrip, strip. apply lstrip_by_id.
  exact (proj1 (strip_by_no_edge isspace s)).
Qed.

Lemma with_front_of_stripped (date s : string) :
  startswith "---" (with_front date (strip s)) = true.
Proof.
  destruct (with_front_cases date (strip s)) as [[H ->]|(_ & _ & H)]; [|exact H].
  rewrite strip_has_no_lead in H. exact H.
Qed.

Section StepsWithResults.

Variable P : event -> Prop.
Hypothesis P_print : forall line, P (EvPrint line).
Hypothesis P_mkdir : forall dir, P (EvMkdir dir).

Lemma gen_with_openai_returns_stripped (w : world) (prompt : string) :
  P EvModelList -> (forall req, P (EvChatCreate req)) ->
  emits P (fun out => exists s, out = PStr (strip s)) (gen_with_openai w prompt).
Proof.
  intros Hlist Hchat. unfold gen_with_openai.
  destruct (negb (truthy (environ w !! "OPENAI_API_KEY"))); [apply emits_raise|].
  apply emits_bind with (Q := fun _ => True); [apply emits_call; auto|].
  intros data _. apply emits_bind with (Q := fun _ => True); [apply emits_call; auto|].
  intros choices _. apply emits_bind with (Q := fun _ => True); [apply emits_lift; auto|].
  intros [content|] _; [apply emits_ret; eauto | apply emits_raise].
Qed.

Lemma finish_emits_for (Q : pyval -> Prop) (w : world) (out : pyval) :
  Q out ->
  (forall text path date, Q (PStr text) -> P (EvWrite path (with_front date text))) ->
  emits P (fun _ => True) (finish w out).
Proof.
  intros Hout Hwrite. unfold finish.
  apply emits_bind with (Q := fun text => out = PStr text).
  { apply emits_lift. intros text E. destruct out; try discriminate.
    cbn in E. congruence. }
  intros text ->.
  eapply emits_bind; [apply ensure_front_emits|].
  intros post [date ->].
  apply emits_bind with (Q := fun _ => True).
  { apply save_markdown_emits; auto. }
  intros path _. apply emits_emit; auto.
Qed.

Lemma main_with_emits_for (Q : pyval -> Prop) (w : world)
      (gen : world -> string -> M pyval) :
  (forall prompt, emits P Q (gen w prompt)) ->
  (forall text path date, Q (PStr text) -> P (EvWrite path (with_front date text))) ->
  emits P (fun _ => True) (main_with w gen).
Proof.
  intros Hgen Hwrite. unfold main_with.
  apply emits_bind with (Q := fun _ => True); [apply emits_emit; auto|].
  intros _ _. apply emits_bind with (Q := Q); [apply Hgen|].
  intros out Hout. apply finish_emits_for with (Q := Q); assumption.
Qed.

End StepsWithResults.

(** X18.  With Provider A the file itself begins with [---]: the
    generator strips its text, so no whitespace can come before an
    existing frontmatter. *)
Theorem openai_post_begins_with_dashes (str_of : pyval -> string) (w : world)
        (path content : string) :
  USE_OPENAI (environ w) = true ->
  In (EvWrite path content) (snd (run str_of w)) ->
  startswith "---" content = true.
Proof.
  intros Hflag Hin.
  set (P := fun e => forall p c, e = EvWrite p c -> startswith "---" c = true).
  assert (F : Forall P (snd (run str_of w))).
  { unfold run; cbn [snd]. apply emits_run with (Q := fun _ => True).
    rewrite main_unfold, Hflag.
    apply main_with_emits_for with (Q := fun out => exists s, out = PStr (strip s));
      try (intros; intros ? ? [=]; fail).
    - intros prompt. apply gen_with_openai_returns_stripped;
        intros; intros ? ? [=].
    - intros text p date [s [= ->]] ? ? [= <- <-].
      apply with_front_of_stripped. }
  rewrite List.Forall_forall in F. exact (F _ Hin path content eq_refl).
Qed.

Lemma openai_post_begins_with_dashes_witness :
  startswith "---"
    ("---" ++ LF ++ "title: t" ++ LF ++ "---" ++ LF ++ "Body") = true.
Proof.
  apply (openai_post_begins_with_dashes sample_str padded_world
           "posts/2026-11-03-auto-generated-post.md").
  - reflexivity.
  - vm_compute. do 4 right. left. reflexivity.
Defined.

(** X19.  With Provider B a [generated_text] that is not a string is
    handed on as it is, and the run ends in [AttributeError] where [main]
    first uses it as a string: after the request, before any file. *)
Theorem hf_text_that_is_no_string (str_of : pyval -> string) (w : world)
        (token : string) (resp : http_response)
        (first : list (string * pyval)) (rest : list pyval) (v : pyval) :
  let niche := getenv (environ w) "NICHE" "budget camping gear for beginners" in
  let req := hf_request token (build_prompt niche) in
  USE_OPENAI (environ w) = false ->
  environ w !! "HF_INFERENCE_API_TOKEN" = Some token ->
  token <> EmptyString ->
  http_post w req = Ok resp ->
  is_error_status (status_code resp) = false ->
  body resp = Some (PList (PDict first :: rest)) ->
  dict_get "generated_text" first = Some v ->
  not_str v = true ->
  run str_of w
  = (Raise AttributeError,
     [EvPrint ("Generating post for niche: " ++ niche); EvHttpPost req]).
Proof.
  intros niche req Hflag Htoken Hne Hpost Hstatus Hbody Hget Hv.
  unfold run. rewrite main_unfold, Hflag. unfold main_with, bind, print, emit.
  fold niche. cbn [trace clock init app].
  rewrite (gen_with_hf_unfold str_of w token (build_prompt niche) _ Htoken Hne).
  cbv zeta. fold req. rewrite Hpost, Hstatus, Hbody.
  destruct (hf_text_chain str_of) as (_ & _ & _ & Hchain & _).
  rewrite (Hchain first rest v Hget).
  unfold finish, bind, lift. destruct v; try discriminate; reflexivity.
Qed.

Lemma hf_text_that_is_no_string_witness :
  run sample_str null_text_world
  = (Raise AttributeError,
     [EvPrint "Generating post for niche: budget camping gear for beginners";
      EvHttpPost (hf_request "hf_token"
                    (build_prompt "budget camping gear for beginners"))]).
Proof.
  apply (hf_text_that_is_no_string sample_str null_text_world "hf_token"
           {| status_code := 200;
              body := Some (PList [PDict [("generated_text", PNone)]]) |}
           [("generated_text", PNone)] [] PNone);
    try reflexivity.
  discriminate.
Defined.

(** ** More on the prompt *)

Lemma length_append (a b : string) :
  String.length (a ++ b) = String.length a + String.length b.
Proof.
  induction a as [|c a IH]; [reflexivity|].
  rewrite append_cons. cbn [String.length]. rewrite IH. reflexivity.
Qed.

Lemma append_cancel_l (head a b : string) : head ++ a = head ++ b -> a = b.
Proof.
  induction head as [|c head IH]; [rewrite !append_nil; auto|].
  rewrite !append_cons. intros [= H]. exact (IH H).
Qed.

Lemma append_cancel_r (tail a b : string) : a ++ tail = b ++ tail -> a = b.
Proof.
  revert b; induction a as [|c a IH]; intros [|d b] H.
  - reflexivity.
  - apply (f_equal String.length) in H.
    rewrite append_nil, append_cons in H. cbn [String.length] in H.
    rewrite length_append in H. lia.
  - apply (f_equal String.length) in H.
    rewrite append_nil, append_cons in H. cbn [String.length] in H.
    rewrite length_append in H. lia.
  - rewrite !append_cons in H. injection H as -> H. rewrite (IH b H). reflexivity.
Qed.

(** X20.  Different niches give different prompts: the niche can be read
    back from the prompt. *)
Theorem build_prompt_is_injective (a b : string) :
  a <> b -> build_prompt a <> build_prompt b.
Proof.
  unfold build_prompt. intros Hne H. apply Hne.
  apply append_cancel_l in H. apply append_cancel_r in H. exact H.
Qed.

Lemma build_prompt_is_injective_witness :
  build_prompt "camping" <> build_prompt "camping stoves".
Proof. apply build_prompt_is_injective. discriminate. Defined.

(** ** The slug of a title of any characters *)

Section UnicodeSlug.

Variable U : ucd.

Lemma join_singletons (l : list N) :
  concat (map (fun c => if u_isalnum U c then [c] else [hyphen]) l)
  = map (uhyphenate U) l.
Proof.
  induction l as [|c l IH]; [reflexivity|].
  cbn [map concat]. rewrite IH. unfold uhyphenate.
  destruct (u_isalnum U c); reflexivity.
Qed.

Lemma usafe_is_uslug_spec (title : list N) : usafe U title = uslug_spec U title.
Proof. unfold usafe, uslug_spec. rewrite join_singletons. reflexivity. Qed.

Lemma rstrip_cp_cons (c x : N) (r : list N) :
  rstrip_cp c (x :: r)
  = match rstrip_cp c r with
    | [] => if N.eqb x c then [] else [x]
    | y :: r' => x :: y :: r'
    end.
Proof. reflexivity. Qed.

Lemma Forall_lstrip_cp (P : N -> Prop) (c : N) (s : list N) :
  Forall P s -> Forall P (lstrip_cp c s).
Proof.
  induction 1 as [|x r Hx Hr IH]; cbn [lstrip_cp]; [constructor|].
  destruct (N.eqb x c); [exact IH | constructor; assumption].
Qed.

Lemma Forall_rstrip_cp (P : N -> Prop) (c : N) (s : list N) :
  Forall P s -> Forall P (rstrip_cp c s).
Proof.
  induction 1 as [|x r Hx Hr IH]; [constructor|].
  rewrite rstrip_cp_cons. destruct (rstrip_cp c r) as [|y r'].
  - destruct (N.eqb x c); repeat constructor; assumption.
  - constructor; assumption.
Qed.

Lemma Forall_firstn_cp (P : N -> Prop) (n : nat) (s : list N) :
  Forall P s -> Forall P (firstn n s).
Proof.
  intros H; revert n; induction H as [|x r Hx Hr IH]; intros [|n];
    cbn [firstn]; constructor; auto.
Qed.

Lemma length_lstrip_cp (c : N) (s : list N) :
  length (lstrip_cp c s) <= length s.
Proof.
  induction s as [|x r IH]; cbn [lstrip_cp length]; [lia|].
  destruct (N.eqb x c); cbn [length]; lia.
Qed.

Lemma length_rstrip_cp (c : N) (s : list N) :
  length (rstrip_cp c s) <= length s.
Proof.
  induction s as [|x r IH]; [cbn; lia|].
  rewrite rstrip_cp_cons. destruct (rstrip_cp c r) as [|y r'].
  - destruct (N.eqb x c); cbn [length] in *; lia.
  - cbn [length] in *; lia.
Qed.

Lemma lstrip_cp_head (c : N) (s : list N) :
  match lstrip_cp c s with
  | [] => True
  | x :: _ => x <> c
  end.
Proof.
  induction s as [|x r IH]; cbn [lstrip_cp]; [exact I|].
  destruct (N.eqb x c) eqn:E; [exact IH|]. apply N.eqb_neq, E.
Qed.

Lemma rstrip_cp_keeps_head (c x : N) (r : list N) :
  x <> c -> exists r', rstrip_cp c (x :: r) = x :: r'.
Proof.
  intros H. rewrite rstrip_cp_cons. destruct (rstrip_cp c r) as [|y r'].
  - apply N.eqb_neq in H. rewrite H. eauto.
  - eauto.
Qed.

Lemma rstrip_cp_last (c : N) (s r : list N) :
  rstrip_cp c s <> (r ++ [c])%list.
Proof.
  revert r; induction s as [|x s IH]; intros r.
  - destruct r; discriminate.
  - rewrite rstrip_cp_cons. destruct (rstrip_cp c s) as [|y s'] eqn:E.
    + destruct (N.eqb x c) eqn:Ex.
      * destruct r; discriminate.
      * destruct r as [|z [|z' r]]; cbn [app]; try discriminate.
        intros [= ->]. rewrite N.eqb_refl in Ex. discriminate.
    + destruct r as [|z r]; cbn [app]; [discriminate|].
      intros [= -> H]. exact (IH r H).
Qed.

Lemma strip_cp_no_edge (c : N) (s : list N) :
  (forall r, strip_cp c s <> c :: r) /\
  (forall r, strip_cp c s <> (r ++ [c])%list).
Proof.
  unfold strip_cp. split; [|apply rstrip_cp_last].
  intros r. pose proof (lstrip_cp_head c s) as H.
  destruct (lstrip_cp c s) as [|x t]; [discriminate|].
  destruct (rstrip_cp_keeps_head c x t H) as [t' ->].
  intros [= -> _]. apply H. reflexivity.
Qed.

Lemma uhyphenate_char (l : list N) :
  Forall (fun c => c = hyphen \/ (u_isalnum U c = true /\ In c l))
         (map (uhyphenate U) l).
Proof.
  apply List.Forall_forall. intros c Hin.
  apply in_map_iff in Hin as (d & <- & Hd). unfold uhyphenate.
  destruct (u_isalnum U d) eqn:E; [right; auto | left; reflexivity].
Qed.

(** C3, as amended.  For a title of any characters the slug is the
    lowercased title with every non-alphanumeric character replaced by a
    hyphen, cut to 60 characters and stripped of hyphens at both ends; so
    each of its characters is a hyphen or an alphanumeric character of the
    lowercased title, it neither begins nor ends with a hyphen, and it is
    at most 60 characters long. *)
Theorem slug_of_any_title (title : list N) :
  usafe U title = uslug_spec U title /\
  Forall (fun c => c = hyphen \/ (u_isalnum U c = true /\ In c (u_lower U title)))
         (usafe U title) /\
  (forall r, usafe U title <> hyphen :: r) /\
  (forall r, usafe U title <> (r ++ [hyphen])%list) /\
  length (usafe U title) <= 60.
Proof.
  pose proof (usafe_is_uslug_spec title) as E.
  split; [exact E|]. rewrite E. unfold uslug_spec.
  destruct (strip_cp_no_edge hyphen
              (firstn 60 (map (uhyphenate U) (u_lower U title)))) as [Hfirst Hlast].
  repeat split; [| exact Hfirst | exact Hlast |].
  - unfold strip_cp. apply Forall_rstrip_cp, Forall_lstrip_cp, Forall_firstn_cp.
    apply uhyphenate_char.
  - unfold strip_cp.
    pose proof (length_rstrip_cp hyphen
                  (lstrip_cp hyphen
                     (firstn 60 (map (uhyphenate U) (u_lower U title))))) as Hr.
    pose proof (length_lstrip_cp hyphen
                  (firstn 60 (map (uhyphenate U) (u_lower U title)))) as Hl.
    pose proof (firstn_le_length 60 (map (uhyphenate U) (u_lower U title))) as Ht.
    lia.
Qed.

Lemma filter_lstrip_cp (c : N) (s : list N) :
  u_isalnum U c = false ->
  List.filter (u_isalnum U) (lstrip_cp c s) = List.filter (u_isalnum U) s.
Proof.
  intros H. induction s as [|x r IH]; [reflexivity|].
  cbn [lstrip_cp]. destruct (N.eqb x c) eqn:E; [|reflexivity].
  apply N.eqb_eq in E. subst x. cbn [List.filter]. rewrite H. exact IH.
Qed.

Lemma filter_rstrip_cp (c : N) (s : list N) :
  u_isalnum U c = false ->
  List.filter (u_isalnum U) (rstrip_cp c s) = List.filter (u_isalnum U) s.
Proof.
  intros H. induction s as [|x r IH]; [reflexivity|].
  rewrite rstrip_cp_cons. cbn [List.filter]. rewrite <- IH.
  destruct (rstrip_cp c r) as [|y r'].
  - destruct (N.eqb x c) eqn:E.
    + apply N.eqb_eq in E. subst x. rewrite H. reflexivity.
    + reflexivity.
  - reflexivity.
Qed.

Lemma filter_uhyphenate (s : list N) :
  u_isalnum U hyphen = false ->
  List.filter (u_isalnum U) (map (uhyphenate U) s) = List.filter (u_isalnum U) s.
Proof.
  intros H. induction s as [|x r IH]; [reflexivity|].
  cbn [map List.filter]. unfold uhyphenate at 1 2.
  destruct (u_isalnum U x) eqn:E; rewrite ?E, ?H, IH; reflexivity.
Qed.

(** X21.  The slug keeps the letters and digits of the title: its
    alphanumeric characters are, in order, those of the first 60
    characters of the lowercased title.  The hyphen is no alphanumeric
    character. *)
Theorem slug_keeps_alphanumerics (title : list N) :
  u_isalnum U hyphen = false ->
  List.filter (u_isalnum U) (usafe U title)
  = List.filter (u_isalnum U) (firstn 60 (u_lower U title)).
Proof.
  intros H. rewrite usafe_is_uslug_spec. unfold uslug_spec, strip_cp.
  rewrite filter_rstrip_cp, filter_lstrip_cp by exact H.
  revert H. generalize (u_lower U title). intros l H.
  rewrite List.firstn_map, filter_uhyphenate by exact H.
  reflexivity.
Qed.

End UnicodeSlug.

Lemma slug_keeps_alphanumerics_witness :
  List.filter (u_isalnum excerpt) (usafe excerpt [304; 33; 120]%N)
  = [105; 120]%N.
Proof.
  rewrite (slug_keeps_alphanumerics excerpt [304; 33; 120]%N) by reflexivity.
  reflexivity.
Defined.

(** C3, as stated, fails: the title made of U+03D2 is its own lowercase
    and alphanumeric, so it is the slug, and it is an uppercase letter. *)
Lemma slug_keeps_uppercase_upsilon :
  usafe excerpt [978%N] = [978%N] /\
  u_isalnum excerpt 978 = true /\
  u_isupper excerpt 978 = true /\
  forallb (uslug_char excerpt) (usafe excerpt [978%N]) = false.
Proof. repeat split. Qed.

(** The capital I with dot above becomes two characters, of which the
    slug keeps the letter. *)
Example slug_of_dotted_capital_i : usafe excerpt [304%N] = [105%N].
Proof. reflexivity. Qed.

(** *** The two models of the slug agree on 8-bit titles *)

Lemma excerpt_of_code (c : ascii) :
  excerpt_isalnum (code c) = isalnum c /\
  excerpt_isupper (code c) = isupper c /\
  excerpt_lower_char (code c) = [code (lower_char c)] /\
  N.eqb (code c) hyphen = Ascii.eqb "-"%char c.
Proof. destruct c as [[] [] [] [] [] [] [] []]; vm_compute; repeat split. Qed.

Lemma codes_lower (s : string) : u_lower excerpt (codes s) = codes (lower s).
Proof.
  unfold lower. cbn [u_lower excerpt].
  induction s as [|c r IH]; [reflexivity|].
  cbn [codes flat_map map_chars].
  rewrite (proj1 (proj2 (proj2 (excerpt_of_code c)))), IH. reflexivity.
Qed.

Lemma codes_hyphenate (s : string) :
  map (uhyphenate excerpt) (codes s) = codes (map_chars hyphenate s).
Proof.
  induction s as [|c r IH]; [reflexivity|].
  cbn [codes map map_chars]. rewrite IH. f_equal.
  unfold uhyphenate, hyphenate. cbn [u_isalnum excerpt].
  rewrite (proj1 (excerpt_of_code c)). destruct (isalnum c); reflexivity.
Qed.

Lemma codes_take (n : nat) (s : string) : firstn n (codes s) = codes (take n s).
Proof.
  revert s; induction n as [|n IH]; intros [|c r]; cbn [firstn codes take];
    try reflexivity.
  rewrite IH. reflexivity.
Qed.

Lemma codes_lstrip (s : string) :
  lstrip_cp hyphen (codes s) = codes (lstrip_by (Ascii.eqb "-"%char) s).
Proof.
  induction s as [|c r IH]; [reflexivity|].
  cbn [codes lstrip_cp lstrip_by].
  rewrite (proj2 (proj2 (proj2 (excerpt_of_code c)))).
  destruct (Ascii.eqb "-"%char c); [exact IH | reflexivity].
Qed.

Lemma codes_rstrip (s : string) :
  rstrip_cp hyphen (codes s) = codes (rstrip_by (Ascii.eqb "-"%char) s).
Proof.
  induction s as [|c r IH]; [reflexivity|].
  cbn [codes]. rewrite rstrip_cp_cons, rstrip_by_cons, IH.
  rewrite (proj2 (proj2 (proj2 (excerpt_of_code c)))).
  destruct (rstrip_by (Ascii.eqb "-"%char) r); cbn [codes];
    [destruct (Ascii.eqb "-"%char c)|]; reflexivity.
Qed.

(** On a title of 8-bit characters the slug over all code points is the
    slug of [save_markdown] as the runs above compute it. *)
Lemma usafe_of_codes (title : string) :
  usafe excerpt (codes title) = codes (safe title).
Proof.
  rewrite usafe_is_uslug_spec, safe_is_slug_spec.
  unfold uslug_spec, slug_spec, strip_cp, strip_by.
  rewrite codes_lower, codes_hyphenate, codes_take, codes_lstrip, codes_rstrip.
  reflexivity.
Qed.

Lemma uslug_char_of_code (c : ascii) :
  uslug_char excerpt (code c) = slug_char c.
Proof. destruct c as [[] [] [] [] [] [] [] []]; vm_compute; reflexivity. Qed.

(** So on such a title every character of the slug is a hyphen or a
    lowercase alphanumeric. *)
Lemma slug_of_8bit_title_is_lowercase (title : string) :
  forallb (uslug_char excerpt) (usafe excerpt (codes title)) = true.
Proof.
  rewrite usafe_of_codes. pose proof (all_chars_safe title) as H.
  induction (safe title) as [|c r IH]; [reflexivity|].
  cbn [codes forallb all_chars] in *. apply andb_prop in H as [Hc Hr].
  rewrite uslug_char_of_code, Hc, (IH Hr). reflexivity.
Qed.
